(** * avPublisher: the sensor sampler and publish scheduler of the mangOH Red
    sensor-to-cloud agent

    A shallow embedding of [avPublisherComponent/avPublisher.c]: the sensor
    descriptors ([struct Item], the [Items] array), the per-sensor
    read/threshold/record/copy functions and the timer handler
    [SampleTimerHandler], followed by the properties of the specification
    that concern them.

    Conventions of the embedding:
    - [uint64_t] timestamps are [Z] with the wrap-around of their subtraction
      written out ([u64_sub]); [int32_t] is [Z] wrapped by [wrap_i32];
    - [double] is Rocq's binary64 [float];
    - the services the file calls but does not define (the sensor drivers
      [mangOH_Read*], the AirVantage data service [le_avdata_*], the log) are
      the [Sensors] and [Platform] records: the outcome of each call is
      scripted by the environment, so every theorem holds for every
      behaviour of these services;
    - the C library functions whose result the standard leaves open ([pow]
      away from its special values, [atoi] beyond the range of [int]) are
      the [Libm] record, scripted in the same way;
    - a [void *] slot of a descriptor is the value it points to; a function
      pointer is an [option], [None] being the null pointer an initializer
      leaves when it omits the member. *)

From Stdlib Require Import ZArith List Ascii String Bool Lia Floats.
From Stdlib Require Import Eqdep.
From Stdlib Require Uint63.
Import ListNotations.

Local Open Scope string_scope.
Local Open Scope list_scope.
Local Open Scope Z_scope.

(** ** Machine integers *)

Definition wrap_u64 (z : Z) : Z := z mod 2 ^ 64.

Definition wrap_i32 (z : Z) : Z := (z + 2 ^ 31) mod 2 ^ 32 - 2 ^ 31.

(** [a - b] on two [uint64_t]. *)
Definition u64_sub (a b : Z) : Z := wrap_u64 (a - b).

(** [a - b] on two [int32_t], and [abs] of an [int]. *)
Definition i32_sub (a b : Z) : Z := wrap_i32 (a - b).
Definition i32_abs (a : Z) : Z := wrap_i32 (Z.abs a).

Definition int32 (z : Z) : Prop := - 2 ^ 31 <= z < 2 ^ 31.

(** ** Result codes

    The codes of Legato's [le_result_t] that the file names. *)
Inductive le_result_t : Set :=
| LE_OK
| LE_OUT_OF_RANGE
| LE_FAULT
| LE_OVERFLOW
| LE_BUSY.

Definition is_ok (r : le_result_t) : bool :=
  match r with LE_OK => true | _ => false end.

Definition LE_RESULT_TXT (r : le_result_t) : string :=
  match r with
  | LE_OK => "LE_OK"
  | LE_OUT_OF_RANGE => "LE_OUT_OF_RANGE"
  | LE_FAULT => "LE_FAULT"
  | LE_OVERFLOW => "LE_OVERFLOW"
  | LE_BUSY => "LE_BUSY"
  end.

(** ** Sensor values *)

Record Acceleration : Set := mkAcceleration
  { acc_x : float; acc_y : float; acc_z : float }.

Record Gyro : Set := mkGyro
  { gyro_x : float; gyro_y : float; gyro_z : float }.

Record Location3d : Set := mkLocation3d
  { latitude : float;
    longitude : float;
    hAccuracy : float;
    altitude : float;
    vAccuracy : float }.

(** The sensor drivers.  Each takes the contents of the slot it is handed and
    yields its result code and the contents it leaves there. *)
Record Sensors : Type := mkSensors
  { mangOH_ReadLightSensor : Z -> le_result_t * Z;
    mangOH_ReadPressureSensor : float -> le_result_t * float;
    mangOH_ReadTemperatureSensor : float -> le_result_t * float;
    mangOH_ReadAccelerometer :
      float * float * float -> le_result_t * (float * float * float);
    mangOH_ReadGyro :
      float * float * float -> le_result_t * (float * float * float);
    mangOH_ReadGps :
      float * float * float * float * float ->
      le_result_t * (float * float * float * float * float) }.

(** ** The platform: the AirVantage record and the log *)

Inductive Scalar : Set :=
| IntVal (v : Z)
| FloatVal (v : float).

Record Entry : Set := mkEntry
  { path : string; value : Scalar; timestamp : Z }.

Inductive LogLevel : Set := WARN | ERROR.

(** [record_result k] and [push_result k] are the answers of the data service
    to the [k]-th [le_avdata_Record*] and [le_avdata_PushRecord] call.
    [recordCalls] lists every [le_avdata_Record*] call made, [RecordRef] the
    entries the record accepted, [pushCalls] the contents of the record at
    each [le_avdata_PushRecord]. *)
Record Platform : Type := mkPlatform
  { record_result : nat -> le_result_t;
    push_result : nat -> le_result_t;
    recordCalls : list Entry;
    RecordRef : list Entry;
    pushCalls : list (list Entry);
    syslog : list (LogLevel * string) }.

Definition PM (A : Type) : Type := Platform -> A * Platform.

Definition retP {A} (a : A) : PM A := fun p => (a, p).

Definition bindP {A B} (m : PM A) (k : A -> PM B) : PM B :=
  fun p => let (a, p') := m p in k a p'.

Declare Scope platform_scope.
Delimit Scope platform_scope with P.
Notation "x <- m ;; k" := (bindP m (fun x => k))
  (at level 61, m at next level, right associativity) : platform_scope.
Notation "m ;; k" := (bindP m (fun _ => k))
  (at level 61, right associativity) : platform_scope.

Definition log_msg (l : LogLevel) (msg : string) : PM unit :=
  fun p =>
    (tt, {| record_result := record_result p;
            push_result := push_result p;
            recordCalls := recordCalls p;
            RecordRef := RecordRef p;
            pushCalls := pushCalls p;
            syslog := syslog p ++ [(l, msg)] |}).

Definition LE_WARN : string -> PM unit := log_msg WARN.
Definition LE_ERROR : string -> PM unit := log_msg ERROR.

(** One [le_avdata_Record*] call: the entry joins the record when the service
    answers [LE_OK], and not otherwise. *)
Definition avdata_record (e : Entry) : PM le_result_t :=
  fun p =>
    let r := record_result p (List.length (recordCalls p)) in
    (r, {| record_result := record_result p;
           push_result := push_result p;
           recordCalls := recordCalls p ++ [e];
           RecordRef := if is_ok r then RecordRef p ++ [e] else RecordRef p;
           pushCalls := pushCalls p;
           syslog := syslog p |}).

Definition le_avdata_RecordInt (pth : string) (v : Z) (ts : Z)
  : PM le_result_t :=
  avdata_record {| path := pth; value := IntVal v; timestamp := ts |}.

Definition le_avdata_RecordFloat (pth : string) (v : float) (ts : Z)
  : PM le_result_t :=
  avdata_record {| path := pth; value := FloatVal v; timestamp := ts |}.

(** The handler never clears the record: a push hands over what has
    accumulated and leaves [RecordRef] as it is. *)
Definition le_avdata_PushRecord : PM le_result_t :=
  fun p =>
    (push_result p (List.length (pushCalls p)),
     {| record_result := record_result p;
        push_result := push_result p;
        recordCalls := recordCalls p;
        RecordRef := RecordRef p;
        pushCalls := pushCalls p ++ [RecordRef p];
        syslog := syslog p |}).

(** ** Configuration *)

Definition DelayBetweenReadings : Z := 1.
Definition MaxIntervalBetweenPublish : Z := 120.
Definition MinIntervalBetweenPublish : Z := 10.
Definition TimeToStale : Z := 60.

(** [GetCurrentTimestamp], from the two fields of the [struct timeval] that
    [gettimeofday] fills: milliseconds since the epoch. *)
Definition GetCurrentTimestamp (tv_sec tv_usec : Z) : Z :=
  wrap_u64 (wrap_u64 (wrap_u64 tv_sec * 1000) + wrap_u64 tv_usec / 1000).

(** ** Light sensor *)

Definition LightSensorRead (hw : Sensors) (value : Z) : le_result_t * Z :=
  mangOH_ReadLightSensor hw value.

Definition LightSensorThreshold (recordedValue readValue : Z) : bool :=
  200 <? i32_abs (i32_sub recordedValue readValue).

Definition LightSensorRecord (ts : Z) (v : Z) : PM le_result_t :=
  (let pth := "MangOH.Sensors.Light.Level" in
   result <- le_avdata_RecordInt pth v ts ;;
   (if negb (is_ok result)
    then LE_ERROR ("Couldn't record light sensor reading - "
                     ++ LE_RESULT_TXT result)%string
    else retP tt) ;;
   retP result)%P.

Definition LightSensorCopyValue (dest src : Z) : Z := src.

(** ** Pressure sensor *)

Definition PressureSensorRead (hw : Sensors) (value : float)
  : le_result_t * float :=
  mangOH_ReadPressureSensor hw value.

Definition PressureSensorThreshold (recordedValue readValue : float) : bool :=
  (1 <? abs (recordedValue - readValue))%float.

Definition PressureSensorRecord (ts : Z) (v : float) : PM le_result_t :=
  (let pth := "MangOH.Sensors.Pressure.Pressure" in
   result <- le_avdata_RecordFloat pth v ts ;;
   (if negb (is_ok result)
    then LE_ERROR ("Couldn't record pressure sensor reading - "
                     ++ LE_RESULT_TXT result)%string
    else retP tt) ;;
   retP result)%P.

Definition PressureSensorCopyValue (dest src : float) : float := src.

(** ** Temperature sensor *)

Definition TemperatureSensorRead (hw : Sensors) (value : float)
  : le_result_t * float :=
  mangOH_ReadTemperatureSensor hw value.

Definition TemperatureSensorThreshold (recordedValue readValue : float)
  : bool :=
  (2 <? abs (recordedValue - readValue))%float.

Definition TemperatureSensorRecord (ts : Z) (v : float) : PM le_result_t :=
  (let pth := "MangOH.Sensors.Pressure.Temperature" in
   result <- le_avdata_RecordFloat pth v ts ;;
   (if negb (is_ok result)
    then LE_ERROR ("Couldn't record pressure sensor reading - "
                     ++ LE_RESULT_TXT result)%string
    else retP tt) ;;
   retP result)%P.

Definition TemperatureSensorCopyValue (dest src : float) : float := src.

(** ** Accelerometer *)

(** The C library.  [libm_square x] is what [pow] returns for [pow(x, 2)]
    at a finite [x] above zero: a value near the square, whose rounding the
    library does not promise.  [atoi_overflow s] is what [atoi] returns for
    a text whose number does not fit an [int]. *)
Record Libm : Type := mkLibm
  { libm_square : float -> float;
    atoi_overflow : string -> Z }.

(** [pow(d, 2)].  The result is that of the magnitude of [d] (the exponent
    is even); it is +0 at a zero, infinite at an infinity and NaN at a NaN;
    elsewhere it is the library's. *)
Definition pow2 (lib : Libm) (d : float) : float :=
  let x := abs d in
  match classify x with
  | PZero | NZero => 0%float
  | PInf | NInf => infinity
  | NaN => nan
  | _ => libm_square lib x
  end.

(** [path[sizeof(path) - 2] = c]: overwrite the last character of the path. *)
Definition set_last_char (pth : string) (c : ascii) : string :=
  (substring 0 (String.length pth - 1) pth ++ String c EmptyString)%string.

Definition AccelerometerRead (hw : Sensors) (v : Acceleration)
  : le_result_t * Acceleration :=
  let '(r, (vx, vy, vz)) :=
    mangOH_ReadAccelerometer hw (acc_x v, acc_y v, acc_z v) in
  (r, {| acc_x := vx; acc_y := vy; acc_z := vz |}).

Definition AccelerometerThreshold (lib : Libm)
    (recordedValue readValue : Acceleration) : bool :=
  (let v1 := recordedValue in
   let v2 := readValue in
   let deltaX := acc_x v1 - acc_x v2 in
   let deltaY := acc_y v1 - acc_y v2 in
   let deltaZ := acc_z v1 - acc_z v2 in
   let deltaAcc :=
     sqrt (pow2 lib deltaX + pow2 lib deltaY + pow2 lib deltaZ) in
   1 <? abs deltaAcc)%float.

Definition AccelerometerRecord (ts : Z) (v : Acceleration) : PM le_result_t :=
  (let pth := "MangOH.Sensors.Accelerometer.Acceleration._" in
   let pth := set_last_char pth "X" in
   result <- le_avdata_RecordFloat pth (acc_x v) ts ;;
   if negb (is_ok result) then
     LE_ERROR ("Couldn't record accelerometer x reading - "
                 ++ LE_RESULT_TXT result)%string ;;
     retP result
   else
   let pth := set_last_char pth "Y" in
   result <- le_avdata_RecordFloat pth (acc_y v) ts ;;
   if negb (is_ok result) then
     LE_ERROR ("Couldn't record accelerometer y reading - "
                 ++ LE_RESULT_TXT result)%string ;;
     retP result
   else
   let pth := set_last_char pth "Z" in
   result <- le_avdata_RecordFloat pth (acc_z v) ts ;;
   if negb (is_ok result) then
     LE_ERROR ("Couldn't record accelerometer z reading - "
                 ++ LE_RESULT_TXT result)%string ;;
     retP result
   else
   retP result)%P.

Definition AccelerometerCopyValue (dest src : Acceleration) : Acceleration :=
  {| acc_x := acc_x src; acc_y := acc_y src; acc_z := acc_z src |}.

(** ** Gyro *)

(** [M_PI], the binary64 value nearest to pi. *)
Definition M_PI : float := 0x1.921fb54442d18p+1%float.

Definition GyroRead (hw : Sensors) (v : Gyro) : le_result_t * Gyro :=
  let '(r, (vx, vy, vz)) :=
    mangOH_ReadGyro hw (gyro_x v, gyro_y v, gyro_z v) in
  (r, {| gyro_x := vx; gyro_y := vy; gyro_z := vz |}).

Definition GyroThreshold (lib : Libm) (recordedValue readValue : Gyro)
  : bool :=
  (let v1 := recordedValue in
   let v2 := readValue in
   let deltaX := gyro_x v1 - gyro_x v2 in
   let deltaY := gyro_y v1 - gyro_y v2 in
   let deltaZ := gyro_z v1 - gyro_z v2 in
   let deltaAngVel :=
     sqrt (pow2 lib deltaX + pow2 lib deltaY + pow2 lib deltaZ) in
   M_PI / 2 <? abs deltaAngVel)%float.

Definition GyroRecord (ts : Z) (v : Gyro) : PM le_result_t :=
  (let pth := "MangOH.Sensors.Accelerometer.Gyro._" in
   let pth := set_last_char pth "X" in
   result <- le_avdata_RecordFloat pth (gyro_x v) ts ;;
   if negb (is_ok result) then
     LE_ERROR ("Couldn't record gyro x reading - "
                 ++ LE_RESULT_TXT result)%string ;;
     retP result
   else
   let pth := set_last_char pth "Y" in
   result <- le_avdata_RecordFloat pth (gyro_y v) ts ;;
   if negb (is_ok result) then
     LE_ERROR ("Couldn't record gyro y reading - "
                 ++ LE_RESULT_TXT result)%string ;;
     retP result
   else
   let pth := set_last_char pth "Z" in
   result <- le_avdata_RecordFloat pth (gyro_z v) ts ;;
   if negb (is_ok result) then
     LE_ERROR ("Couldn't record gyro z reading - "
                 ++ LE_RESULT_TXT result)%string ;;
     retP result
   else
   retP result)%P.

Definition GyroCopyValue (dest src : Gyro) : Gyro :=
  {| gyro_x := gyro_x src; gyro_y := gyro_y src; gyro_z := gyro_z src |}.

(** ** GPS *)

(** [strcpy(&path[pos], src)]: keep the first [pos] characters, then [src]. *)
Definition strcpy_at (pth : string) (pos : nat) (src : string) : string :=
  (substring 0 pos pth ++ src)%string.

Definition GpsRead (hw : Sensors) (v : Location3d)
  : le_result_t * Location3d :=
  let '(r, (lat, lon, hAcc, alt, vAcc)) :=
    mangOH_ReadGps hw
      (latitude v, longitude v, hAccuracy v, altitude v, vAccuracy v) in
  (r, {| latitude := lat; longitude := lon; hAccuracy := hAcc;
         altitude := alt; vAccuracy := vAcc |}).

Definition GpsThreshold (recordedValue readValue : Location3d) : bool :=
  (let v1 := recordedValue in
   let v2 := readValue in
   let deltaLat := latitude v2 - latitude v1 in
   let deltaLon := longitude v2 - longitude v1 in
   0x1.47ae147ae147bp-7 <? abs deltaLat + abs deltaLon)%float.

Definition GpsRecord (ts : Z) (v : Location3d) : PM le_result_t :=
  (let pth := "lwm2m.6.0." in
   let end_ := String.length pth in
   let pth := strcpy_at pth end_ "0" in
   result <- le_avdata_RecordFloat pth (latitude v) ts ;;
   if negb (is_ok result) then
     LE_ERROR ("Couldn't record gps latitude reading - "
                 ++ LE_RESULT_TXT result)%string ;;
     retP result
   else
   let pth := strcpy_at pth end_ "1" in
   result <- le_avdata_RecordFloat pth (longitude v) ts ;;
   if negb (is_ok result) then
     LE_ERROR ("Couldn't record gps longitude reading - "
                 ++ LE_RESULT_TXT result)%string ;;
     retP result
   else
   let pth := strcpy_at pth end_ "3" in
   result <- le_avdata_RecordFloat pth (hAccuracy v) ts ;;
   if negb (is_ok result) then
     LE_ERROR ("Couldn't record gps horizontal accuracy reading - "
                 ++ LE_RESULT_TXT result)%string ;;
     retP result
   else
   let pth := strcpy_at pth end_ "2" in
   result <- le_avdata_RecordFloat pth (altitude v) ts ;;
   if negb (is_ok result) then
     LE_ERROR ("Couldn't record gps altitude reading - "
                 ++ LE_RESULT_TXT result)%string ;;
     retP result
   else
   let pth := strcpy_at pth end_ "MangOH.Sensors.Gps.VerticalAccuracy" in
   result <- le_avdata_RecordFloat pth (vAccuracy v) ts ;;
   if negb (is_ok result) then
     LE_ERROR ("Couldn't record gps vertical accuracy reading - "
                 ++ LE_RESULT_TXT result)%string ;;
     retP result
   else
   retP result)%P.

Definition GpsCopyValue (dest src : Location3d) : Location3d :=
  {| latitude := latitude src;
     longitude := longitude src;
     hAccuracy := hAccuracy src;
     altitude := altitude src;
     vAccuracy := vAccuracy src |}.

(** ** Sensor descriptors *)

(** [struct Item], for a sensor whose readings have type [T]: the four
    functions all take the same type of value.  [lastValueRead] and
    [lastValueRecorded] are the two variables of [SensorData] the descriptor
    points to. *)
Record Item (T : Type) : Type := mkItem
  { name : string;
    read : option (Sensors -> T -> le_result_t * T);
    thresholdCheck : option (T -> T -> bool);
    record : option (Z -> T -> PM le_result_t);
    copyValue : option (T -> T -> T);
    lastValueRead : T;
    lastValueRecorded : T;
    lastTimeRecorded : Z;
    lastTimeRead : Z }.

Arguments mkItem {T}.
Arguments name {T}.
Arguments read {T}.
Arguments thresholdCheck {T}.
Arguments record {T}.
Arguments copyValue {T}.
Arguments lastValueRead {T}.
Arguments lastValueRecorded {T}.
Arguments lastTimeRecorded {T}.
Arguments lastTimeRead {T}.

Definition set_lastValueRead {T} (it : Item T) (v : T) : Item T :=
  mkItem (name it) (read it) (thresholdCheck it) (record it) (copyValue it)
         v (lastValueRecorded it) (lastTimeRecorded it) (lastTimeRead it).

Definition set_lastValueRecorded {T} (it : Item T) (v : T) : Item T :=
  mkItem (name it) (read it) (thresholdCheck it) (record it) (copyValue it)
         (lastValueRead it) v (lastTimeRecorded it) (lastTimeRead it).

Definition set_lastTimeRecorded {T} (it : Item T) (t : Z) : Item T :=
  mkItem (name it) (read it) (thresholdCheck it) (record it) (copyValue it)
         (lastValueRead it) (lastValueRecorded it) t (lastTimeRead it).

Definition set_lastTimeRead {T} (it : Item T) (t : Z) : Item T :=
  mkItem (name it) (read it) (thresholdCheck it) (record it) (copyValue it)
         (lastValueRead it) (lastValueRecorded it) (lastTimeRecorded it) t.

(** An entry of the [Items] array: a descriptor of some value type. *)
Definition AnyItem : Type := {T : Type & Item T}.

Definition any {T} (it : Item T) : AnyItem := existT Item T it.

Definition zeroAcceleration : Acceleration := mkAcceleration 0 0 0.
Definition zeroGyro : Gyro := mkGyro 0 0 0.
Definition zeroLocation3d : Location3d := mkLocation3d 0 0 0 0 0.

(** The entries of [Items], in order.  [SensorData] is a static object, so
    every slot starts at zero.  The initializer of the light level entry
    names neither [read] nor [thresholdCheck] (it names a [dhubPath], which
    [struct Item] does not have): both pointers are null. *)
Definition lightLevelItem : Item Z :=
  {| name := "light level";
     read := None;
     thresholdCheck := None;
     record := Some LightSensorRecord;
     copyValue := Some LightSensorCopyValue;
     lastValueRead := 0;
     lastValueRecorded := 0;
     lastTimeRead := 0;
     lastTimeRecorded := 0 |}.

Definition pressureItem : Item float :=
  {| name := "pressure";
     read := Some PressureSensorRead;
     thresholdCheck := Some PressureSensorThreshold;
     record := Some PressureSensorRecord;
     copyValue := Some PressureSensorCopyValue;
     lastValueRead := 0%float;
     lastValueRecorded := 0%float;
     lastTimeRead := 0;
     lastTimeRecorded := 0 |}.

Definition temperatureItem : Item float :=
  {| name := "temperature";
     read := Some TemperatureSensorRead;
     thresholdCheck := Some TemperatureSensorThreshold;
     record := Some TemperatureSensorRecord;
     copyValue := Some TemperatureSensorCopyValue;
     lastValueRead := 0%float;
     lastValueRecorded := 0%float;
     lastTimeRead := 0;
     lastTimeRecorded := 0 |}.

Definition accelerometerItem (lib : Libm) : Item Acceleration :=
  {| name := "accelerometer";
     read := Some AccelerometerRead;
     thresholdCheck := Some (AccelerometerThreshold lib);
     record := Some AccelerometerRecord;
     copyValue := Some AccelerometerCopyValue;
     lastValueRead := zeroAcceleration;
     lastValueRecorded := zeroAcceleration;
     lastTimeRead := 0;
     lastTimeRecorded := 0 |}.

Definition gyroItem (lib : Libm) : Item Gyro :=
  {| name := "gyro";
     read := Some GyroRead;
     thresholdCheck := Some (GyroThreshold lib);
     record := Some GyroRecord;
     copyValue := Some GyroCopyValue;
     lastValueRead := zeroGyro;
     lastValueRecorded := zeroGyro;
     lastTimeRead := 0;
     lastTimeRecorded := 0 |}.

Definition gpsItem : Item Location3d :=
  {| name := "gps";
     read := Some GpsRead;
     thresholdCheck := Some GpsThreshold;
     record := Some GpsRecord;
     copyValue := Some GpsCopyValue;
     lastValueRead := zeroLocation3d;
     lastValueRecorded := zeroLocation3d;
     lastTimeRead := 0;
     lastTimeRecorded := 0 |}.

Definition Items (lib : Libm) : list AnyItem :=
  [ any lightLevelItem;
    any pressureItem;
    any temperatureItem;
    any (accelerometerItem lib);
    any (gyroItem lib);
    any gpsItem ].

(** ** The handler's monad

    The handler runs over the platform and a trace of the calls it makes
    through the function pointers of the descriptors.  Calling a null
    pointer ends the run: the result is [None]. *)

Inductive Op : Set :=
| OpRead
| OpThresholdCheck
| OpRecord (ts : Z)
| OpCopyValue.

Record Call : Set := mkCall { callee : string; op : Op }.

Record World : Type := mkWorld
  { platform : Platform; calls : list Call }.

Definition M (A : Type) : Type := World -> option (A * World).

Definition ret {A} (a : A) : M A := fun w => Some (a, w).

Definition bind {A B} (m : M A) (k : A -> M B) : M B :=
  fun w => match m w with
           | Some (a, w') => k a w'
           | None => None
           end.

Declare Scope handler_scope.
Delimit Scope handler_scope with M.
Notation "x <- m ;; k" := (bind m (fun x => k))
  (at level 61, m at next level, right associativity) : handler_scope.
Notation "' pat <- m ;; k" := (bind m (fun x => match x with pat => k end))
  (at level 61, pat pattern, m at next level, right associativity)
  : handler_scope.
Notation "m ;; k" := (bind m (fun _ => k))
  (at level 61, right associativity) : handler_scope.

(** Run a platform call. *)
Definition lift {A} (m : PM A) : M A :=
  fun w =>
    let (a, p') := m (platform w) in
    Some (a, {| platform := p'; calls := calls w |}).

(** Fetch the function behind pointer [fp] to call it, noting the call. *)
Definition invoke {F} (c : Call) (fp : option F) : M F :=
  fun w =>
    match fp with
    | Some f => Some (f, {| platform := platform w; calls := calls w ++ [c] |})
    | None => None
    end.

(** ** The timer handler *)

(** The condition under which the first loop forces a publish for an entry:
    nothing recorded for longer than [MaxIntervalBetweenPublish], and a
    reading newer than the last publish. *)
Definition max_interval_force (now LastTimePublished : Z) {T} (it : Item T)
  : bool :=
  (MaxIntervalBetweenPublish * 1000 <? u64_sub now (lastTimeRecorded it))
  && (LastTimePublished <? lastTimeRead it).

(** The condition under which the second loop takes an entry for stale. *)
Definition is_stale (now : Z) {T} (it : Item T) : bool :=
  (TimeToStale * 1000 <? u64_sub now (lastTimeRecorded it))
  && (lastTimeRecorded it <? lastTimeRead it).

(** The body of the first loop of [SampleTimerHandler], for one entry. *)
Definition sample_item (hw : Sensors) (now LastTimePublished : Z) {T}
    (it : Item T) (publish : bool) : M (Item T * bool) :=
  (rd <- invoke (mkCall (name it) OpRead) (read it) ;;
   let (r, v) := rd hw (lastValueRead it) in
   let it := set_lastValueRead it v in
   ' (it, publish) <-
     (if is_ok r then
        let it := set_lastTimeRead it now in
        decided <-
          (if lastTimeRecorded it =? 0 then ret true
           else
             chk <- invoke (mkCall (name it) OpThresholdCheck)
                           (thresholdCheck it) ;;
             ret (chk (lastValueRead it) (lastValueRecorded it))) ;;
        if decided : bool then
          rec <- invoke (mkCall (name it) (OpRecord now)) (record it) ;;
          r <- lift (rec now (lastValueRead it)) ;;
          if is_ok r then
            cp <- invoke (mkCall (name it) OpCopyValue) (copyValue it) ;;
            ret (set_lastValueRecorded it
                   (cp (lastValueRecorded it) (lastValueRead it)),
                 true)
          else
            lift (LE_WARN ("Failed to record " ++ name it)%string) ;;
            ret (it, publish)
        else ret (it, publish)
      else
        lift (LE_WARN ("Failed to read " ++ name it)%string) ;;
        ret (it, publish)) ;;
   if max_interval_force now LastTimePublished it
   then ret (it, true)
   else ret (it, publish))%M.

Fixpoint sample_loop (hw : Sensors) (now LastTimePublished : Z)
    (its : list AnyItem) (publish : bool) : M (list AnyItem * bool) :=
  match its with
  | [] => ret ([], publish)
  | existT _ T it :: rest =>
      (' (it', publish) <- sample_item hw now LastTimePublished it publish ;;
       ' (rest', publish) <- sample_loop hw now LastTimePublished rest publish ;;
       ret (any it' :: rest', publish))%M
  end.

(** The body of the second loop: record the current reading of a stale
    entry. *)
Definition stale_item (now : Z) {T} (it : Item T) : M (Item T) :=
  (if is_stale now it
   then
     rec <- invoke (mkCall (name it) (OpRecord (lastTimeRead it)))
                   (record it) ;;
     r <- lift (rec (lastTimeRead it) (lastValueRead it)) ;;
     if is_ok r then
       cp <- invoke (mkCall (name it) OpCopyValue) (copyValue it) ;;
       let it := set_lastValueRecorded it
                   (cp (lastValueRecorded it) (lastValueRead it)) in
       ret (set_lastTimeRecorded it (lastTimeRead it))
     else
       lift (LE_WARN ("Failed to record " ++ name it)%string) ;;
       ret it
   else ret it)%M.

Fixpoint stale_loop (now : Z) (its : list AnyItem) : M (list AnyItem) :=
  match its with
  | [] => ret []
  | existT _ T it :: rest =>
      (it' <- stale_item now it ;;
       rest' <- stale_loop now rest ;;
       ret (any it' :: rest'))%M
  end.

(** The variables the handler keeps between two runs. *)
Record State : Type := mkState
  { items : list AnyItem;
    DeferredPublish : bool;
    LastTimePublished : Z }.

Definition initial_state (lib : Libm) : State :=
  {| items := Items lib; DeferredPublish := false; LastTimePublished := 0 |}.

(** [SampleTimerHandler], with [now] the value of [GetCurrentTimestamp ()]. *)
Definition SampleTimerHandler (hw : Sensors) (now : Z) (s : State) : M State :=
  (' (its, publish) <-
     sample_loop hw now (LastTimePublished s) (items s) false ;;
   if publish || DeferredPublish s then
     if u64_sub now (LastTimePublished s) <? MinIntervalBetweenPublish then
       ret {| items := its;
              DeferredPublish := true;
              LastTimePublished := LastTimePublished s |}
     else
       its <- stale_loop now its ;;
       r <- lift le_avdata_PushRecord ;;
       if negb (is_ok r) then
         lift (LE_ERROR ("Failed to push record - "
                           ++ LE_RESULT_TXT r)%string) ;;
         ret {| items := its;
                DeferredPublish := DeferredPublish s;
                LastTimePublished := LastTimePublished s |}
       else
         ret {| items := its;
                DeferredPublish := false;
                LastTimePublished := now |}
   else
     ret {| items := its;
            DeferredPublish := DeferredPublish s;
            LastTimePublished := LastTimePublished s |})%M.

(** Successive runs of the handler, one per tick. *)
Fixpoint run_ticks (ticks : list (Sensors * Z)) (s : State) : M State :=
  match ticks with
  | [] => ret s
  | (hw, now) :: rest =>
      (s' <- SampleTimerHandler hw now s ;; run_ticks rest s')%M
  end.

(** ** The change tests as the specification words them *)

Module Spec.

(** Light level: absolute difference above 200, on the integers. *)
Definition light_changed (recorded candidate : Z) : bool :=
  200 <? Z.abs (recorded - candidate).

(** Pressure, temperature: absolute difference above [bound]. *)
Definition abs_difference_exceeds (bound recorded candidate : float)
  : bool :=
  (bound <? abs (recorded - candidate))%float.

(** Acceleration, angular velocity: Euclidean norm of the per-axis deltas
    above [bound], the square of a delta being [square]. *)
Definition euclidean_norm (square : float -> float) (dx dy dz : float)
  : float :=
  (sqrt (square dx + square dy + square dz))%float.

Definition norm_of_deltas_exceeds (square : float -> float) (bound : float)
    (rx ry rz cx cy cz : float) : bool :=
  (bound <? euclidean_norm square (rx - cx) (ry - cy) (rz - cz))%float.

(** Location: [abs(dlat) + abs(dlon)] above 0.01; altitude and the two
    accuracies take no part. *)
Definition location_changed (rlat rlon clat clon : float) : bool :=
  (0x1.47ae147ae147bp-7 <? abs (clat - rlat) + abs (clon - rlon))%float.

End Spec.

(** ** Appending the sub-fields of a composite reading *)

(** Among the [n] answers of the data service from the [k]-th on, the
    position and the code of the first that is not [LE_OK]. *)
Fixpoint first_failure (answer : nat -> le_result_t) (k n : nat)
  : option (nat * le_result_t) :=
  match n with
  | O => None
  | S n' =>
      if is_ok (answer k)
      then match first_failure answer (S k) n' with
           | Some (i, r) => Some (S i, r)
           | None => None
           end
      else Some (O, answer k)
  end.

(** [run] appends [fields] in order and stops at the first refusal: the
    refused call is the last one made, its code is the result, and the
    entries accepted before it stay in the record. *)
Definition appends_until_failure (fields : list Entry)
    (run : PM le_result_t) : Prop :=
  forall p : Platform,
    let (r, p') := run p in
    match first_failure (record_result p) (List.length (recordCalls p))
                        (List.length fields) with
    | None =>
        r = LE_OK
        /\ recordCalls p' = recordCalls p ++ fields
        /\ RecordRef p' = RecordRef p ++ fields
    | Some (i, e) =>
        r = e /\ e <> LE_OK
        /\ recordCalls p' = recordCalls p ++ firstn (S i) fields
        /\ RecordRef p' = RecordRef p ++ firstn i fields
    end.

Definition AccelerometerFields (ts : Z) (v : Acceleration) : list Entry :=
  [ mkEntry "MangOH.Sensors.Accelerometer.Acceleration.X"
            (FloatVal (acc_x v)) ts;
    mkEntry "MangOH.Sensors.Accelerometer.Acceleration.Y"
            (FloatVal (acc_y v)) ts;
    mkEntry "MangOH.Sensors.Accelerometer.Acceleration.Z"
            (FloatVal (acc_z v)) ts ].

Definition GyroFields (ts : Z) (v : Gyro) : list Entry :=
  [ mkEntry "MangOH.Sensors.Accelerometer.Gyro.X" (FloatVal (gyro_x v)) ts;
    mkEntry "MangOH.Sensors.Accelerometer.Gyro.Y" (FloatVal (gyro_y v)) ts;
    mkEntry "MangOH.Sensors.Accelerometer.Gyro.Z" (FloatVal (gyro_z v)) ts ].

Definition GpsFields (ts : Z) (v : Location3d) : list Entry :=
  [ mkEntry "lwm2m.6.0.0" (FloatVal (latitude v)) ts;
    mkEntry "lwm2m.6.0.1" (FloatVal (longitude v)) ts;
    mkEntry "lwm2m.6.0.3" (FloatVal (hAccuracy v)) ts;
    mkEntry "lwm2m.6.0.2" (FloatVal (altitude v)) ts;
    mkEntry "lwm2m.6.0.MangOH.Sensors.Gps.VerticalAccuracy"
            (FloatVal (vAccuracy v)) ts ].

(** ** The record entries of the scalar readings *)

Definition LightSensorFields (ts v : Z) : list Entry :=
  [ mkEntry "MangOH.Sensors.Light.Level" (IntVal v) ts ].

Definition PressureSensorFields (ts : Z) (v : float) : list Entry :=
  [ mkEntry "MangOH.Sensors.Pressure.Pressure" (FloatVal v) ts ].

Definition TemperatureSensorFields (ts : Z) (v : float) : list Entry :=
  [ mkEntry "MangOH.Sensors.Pressure.Temperature" (FloatVal v) ts ].

(** [run], which appends one entry per text of [messages], leaves the
    pushes and the answers of the data service alone.  It logs nothing when
    every entry is accepted and returns [LE_OK]; when the [i]-th is refused
    it returns the code of the refusal and logs one error: the [i]-th text
    followed by that of the code. *)
Definition logs_refused_field (messages : list string)
    (run : PM le_result_t) : Prop :=
  forall p : Platform,
    let (r, p') := run p in
    pushCalls p' = pushCalls p
    /\ record_result p' = record_result p
    /\ push_result p' = push_result p
    /\ match first_failure (record_result p) (List.length (recordCalls p))
                           (List.length messages) with
       | None => r = LE_OK /\ syslog p' = syslog p
       | Some (i, e) =>
           r = e /\ r <> LE_OK
           /\ syslog p'
              = syslog p
                ++ [(ERROR, (nth i messages "" ++ LE_RESULT_TXT e)%string)]
       end.

(** ** Relations between the states of the registry *)

(** A zero or a NaN: what the difference of a binary64 value with itself
    is. *)
Definition zero_or_nan (x : spec_float) : bool :=
  match x with
  | S754_zero _ | S754_nan => true
  | _ => false
  end.

Definition null_delta (x : float) : Prop := zero_or_nan (Prim2SF x) = true.

(** Two entries with the same name and the same four functions. *)
Inductive same_descriptor : AnyItem -> AnyItem -> Prop :=
| same_descriptor_intro (T : Type) (a b : Item T) :
    name a = name b ->
    read a = read b ->
    thresholdCheck a = thresholdCheck b ->
    record a = record b ->
    copyValue a = copyValue b ->
    same_descriptor (any a) (any b).

(** [e'] is [e] with a new value read at [now], and nothing else changed. *)
Definition refreshed (now : Z) (e e' : AnyItem) : Prop :=
  exists T (it : Item T) v,
    e = any it /\ e' = any (set_lastTimeRead (set_lastValueRead it v) now).

(** An entry that gives the tick at [now] nothing to do: it has been
    recorded, its read succeeds with a value under the threshold, and the
    max-interval condition does not hold after the read. *)
Definition quiet_entry (hw : Sensors) (now ltp : Z) (e : AnyItem) : Prop :=
  let (T, it) := e in
  exists rd chk v,
    read it = Some rd
    /\ rd hw (lastValueRead it) = (LE_OK, v)
    /\ lastTimeRecorded it <> 0
    /\ thresholdCheck it = Some chk
    /\ chk v (lastValueRecorded it) = false
    /\ (u64_sub now (lastTimeRecorded it) <= MaxIntervalBetweenPublish * 1000
        \/ now <= ltp).

(** The times of an entry are in order: recorded, then read, then [now]. *)
Definition time_ordered (now : Z) (e : AnyItem) : Prop :=
  let (T, it) := e in lastTimeRecorded it <= lastTimeRead it <= now.

(** ** Commands and session state *)

Definition LED_CMD_SET_LED_BLINK_INTERVAL_RES : string :=
  "/SetLedBlinkInterval".
Definition LED_CMD_LED_BLINK_INTERVAL_RES : string := "LedBlinkInterval".
Definition LED_CMD_ACTIVATE_RES : string := "/ActivateLED".
Definition LED_CMD_DEACTIVATE_RES : string := "/DeactivateLED".

(** [(double) n] for an [int] [n]. *)
Definition double_of_int (z : Z) : float :=
  if z <? 0 then (- PrimFloat.of_uint63 (Uint63.of_Z (- z)))%float
  else PrimFloat.of_uint63 (Uint63.of_Z z).

(** The text [atoi] reads: leading white space, an optional sign, then the
    decimal digits up to the first character that is not one. *)
Definition isspace (c : ascii) : bool :=
  let n := nat_of_ascii c in
  (n =? 32)%nat || ((9 <=? n)%nat && (n <=? 13)%nat).

Definition isdigit (c : ascii) : bool :=
  let n := nat_of_ascii c in (48 <=? n)%nat && (n <=? 57)%nat.

Fixpoint skip_spaces (s : string) : string :=
  match s with
  | String c rest => if isspace c then skip_spaces rest else s
  | EmptyString => s
  end.

Fixpoint read_digits (s : string) (acc : Z) : Z :=
  match s with
  | String c rest =>
      if isdigit c
      then read_digits rest (acc * 10 + (Z.of_nat (nat_of_ascii c) - 48))
      else acc
  | EmptyString => acc
  end.

(** The number the text denotes; 0 when there is no digit. *)
Definition atoi_number (s : string) : Z :=
  match skip_spaces s with
  | String "-" rest => - read_digits rest 0
  | String "+" rest => read_digits rest 0
  | digits => read_digits digits 0
  end.

(** [atoi] of the C library: the number of the text when it fits an [int];
    beyond, the standard leaves the result open (the usual libraries give
    what [strtol] saturates to, converted to [int]): it is the library's,
    some [int]. *)
Definition atoi (lib : Libm) (s : string) : Z :=
  let n := atoi_number s in
  if (- 2 ^ 31 <=? n) && (n <? 2 ^ 31) then n
  else wrap_i32 (atoi_overflow lib s).

(** A line of the log: the level, the format and its arguments. *)
Inductive Severity : Set := LOG_DEBUG | LOG_INFO | LOG_WARN | LOG_ERROR.

Inductive LogArg : Set :=
| ArgString (s : string)
| ArgInt (n : Z)
| ArgResult (r : le_result_t).

Record LogLine : Set := mkLogLine
  { severity : Severity; format : string; arguments : list LogArg }.

(** What the command handlers act on: the values pushed to the Data Hub,
    the results replied to AirVantage, the log. *)
Inductive DhubPush : Set :=
| dhubAdmin_PushNumeric (pth : string) (ts v : float)
| dhubAdmin_PushBoolean (pth : string) (ts : float) (v : bool).

Record Agent : Set := mkAgent
  { dhubPushes : list DhubPush;
    execReplies : list le_result_t;
    journal : list LogLine }.

Definition say (l : Severity) (fmt : string) (args : list LogArg) (a : Agent)
  : Agent :=
  {| dhubPushes := dhubPushes a;
     execReplies := execReplies a;
     journal := journal a ++ [mkLogLine l fmt args] |}.

Definition dhub_push (x : DhubPush) (a : Agent) : Agent :=
  {| dhubPushes := dhubPushes a ++ [x];
     execReplies := execReplies a;
     journal := journal a |}.

Definition le_avdata_ReplyExecResult (result : le_result_t) (a : Agent)
  : Agent :=
  {| dhubPushes := dhubPushes a;
     execReplies := execReplies a ++ [result];
     journal := journal a |}.

(** The argument list of a command: what [le_avdata_GetStringArg] answers
    for an argument name and a buffer size, and the text it leaves in the
    buffer. *)
Definition ArgumentList : Type := string -> nat -> le_result_t * string.

Definition le_avdata_GetStringArg (argumentList : ArgumentList)
    (argName : string) (size : nat) : le_result_t * string :=
  argumentList argName size.

Definition SetLedBlinkIntervalCmd (lib : Libm) (argumentList : ArgumentList)
    (a : Agent) : Agent :=
  let a := say LOG_INFO "Set LED blink interval" [] a in
  let (result, val) :=
    le_avdata_GetStringArg argumentList LED_CMD_LED_BLINK_INTERVAL_RES 32 in
  if negb (is_ok result) then
    let a := say LOG_ERROR "le_avdata_GetStringArg('%s') failed(%d)"
                 [ArgString LED_CMD_LED_BLINK_INTERVAL_RES; ArgResult result]
                 a in
    le_avdata_ReplyExecResult result a
  else
    let a := say LOG_INFO "interval('%s')" [ArgString val] a in
    let ledBlinkDuration := atoi lib val in
    if ledBlinkDuration <? 0 then
      let a := say LOG_WARN "Invalid max interval between publish (%d >= 0)"
                   [ArgInt ledBlinkDuration] a in
      le_avdata_ReplyExecResult LE_OUT_OF_RANGE a
    else
      let a := dhub_push
                 (dhubAdmin_PushNumeric "/app/ledService/blinkPeriod" 0
                    (double_of_int (wrap_i32 (ledBlinkDuration * 2)))) a in
      let a := dhub_push
                 (dhubAdmin_PushBoolean "/app/ledService/value" 0 true) a in
      le_avdata_ReplyExecResult result a.

Definition ActivateLedCmd (a : Agent) : Agent :=
  let a := say LOG_INFO "Activate LED" [] a in
  let a :=
    dhub_push (dhubAdmin_PushBoolean "/app/ledService/value" 0 true) a in
  le_avdata_ReplyExecResult LE_OK a.

Definition DeactivateLedCmd (a : Agent) : Agent :=
  let a := say LOG_INFO "Deactivate LED" [] a in
  let a :=
    dhub_push (dhubAdmin_PushBoolean "/app/ledService/value" 0 false) a in
  le_avdata_ReplyExecResult LE_OK a.








(** ** Test bench

    Sensors whose temperature driver answers as told and whose other drivers
    succeed, a data service with constant answers, and a temperature entry
    in a given state. *)

Definition bench (temperature : le_result_t * float) : Sensors :=
  {| mangOH_ReadLightSensor := fun _ => (LE_OK, 100);
     mangOH_ReadPressureSensor := fun _ => (LE_OK, 1013%float);
     mangOH_ReadTemperatureSensor := fun _ => temperature;
     mangOH_ReadAccelerometer := fun v => (LE_OK, v);
     mangOH_ReadGyro := fun v => (LE_OK, v);
     mangOH_ReadGps := fun v => (LE_OK, v) |}.

(** A C library whose [pow(x, 2)] is the rounded product and whose [atoi]
    gives -1 beyond the range of [int]. *)
Definition bench_libm : Libm :=
  {| libm_square := fun x => (x * x)%float;
     atoi_overflow := fun _ => -1 |}.

Definition service (recordAnswer pushAnswer : le_result_t)
    (made kept : list Entry) : Platform :=
  {| record_result := fun _ => recordAnswer;
     push_result := fun _ => pushAnswer;
     recordCalls := made;
     RecordRef := kept;
     pushCalls := [];
     syslog := [] |}.

Definition service_ok : Platform := service LE_OK LE_OK [] [].

Definition boot : World := {| platform := service_ok; calls := [] |}.

(** The time of a tick: the clock at 1700000000 s. *)
Definition t0 : Z := GetCurrentTimestamp 1700000000 0.

Definition temperatureAt (read_ recorded_ : float) (tRead tRecorded : Z)
  : Item float :=
  {| name := "temperature";
     read := Some TemperatureSensorRead;
     thresholdCheck := Some TemperatureSensorThreshold;
     record := Some TemperatureSensorRecord;
     copyValue := Some TemperatureSensorCopyValue;
     lastValueRead := read_;
     lastValueRecorded := recorded_;
     lastTimeRead := tRead;
     lastTimeRecorded := tRecorded |}.

(** * Properties *)

(** ** Binary64 facts the change tests rest on *)

Section SpecFloatFacts.

Variables prec emax : Z.

Lemma binary_round_aux_abs m e l :
  SFabs (binary_round_aux prec emax true m e l)
  = SFabs (binary_round_aux prec emax false m e l).
Proof.
  unfold binary_round_aux.
  destruct (shr_fexp prec emax m e l) as [mrs e'].
  destruct (shr_fexp prec emax _ e' loc_Exact) as [mrs2 e2].
  destruct (shr_m mrs2); try reflexivity.
  destruct (Z.leb _ _); reflexivity.
Qed.

Lemma binary_round_aux_nonneg m e l :
  SFabs (binary_round_aux prec emax false m e l)
  = binary_round_aux prec emax false m e l.
Proof.
  unfold binary_round_aux.
  destruct (shr_fexp prec emax m e l) as [mrs e'].
  destruct (shr_fexp prec emax _ e' loc_Exact) as [mrs2 e2].
  destruct (shr_m mrs2); try reflexivity.
  destruct (Z.leb _ _); reflexivity.
Qed.

Lemma binary_normalize_abs m e :
  SFabs (binary_normalize prec emax (- m) e false)
  = SFabs (binary_normalize prec emax m e false).
Proof.
  destruct m as [|q|q]; simpl; try reflexivity; unfold binary_round;
    destruct (shl_align _ _ _).
  - apply binary_round_aux_abs.
  - symmetry; apply binary_round_aux_abs.
Qed.

(** Swapping the operands of a subtraction changes at most the sign. *)
Lemma SFsub_abs_comm x y :
  SFabs (SFsub prec emax x y) = SFabs (SFsub prec emax y x).
Proof.
  destruct x as [sx|sx| |sx mx ex], y as [sy|sy| |sy my ey]; simpl;
    try reflexivity; try (destruct sx, sy; reflexivity).
  rewrite (Z.min_comm ey ex), <- binary_normalize_abs.
  f_equal. f_equal. ring.
Qed.

(** A square does not see the sign. *)
Lemma SFmul_abs x y :
  SFabs x = SFabs y -> SFmul prec emax x x = SFmul prec emax y y.
Proof.
  destruct x as [sx|sx| |sx mx ex], y as [sy|sy| |sy my ey]; simpl;
    intros H; try discriminate; try reflexivity;
    try (destruct sx, sy; reflexivity).
  injection H as -> ->. destruct sx, sy; reflexivity.
Qed.

(** A square root is never negative, the root of [-0] set apart. *)
Lemma SFsqrt_nonneg x :
  SFabs (SFsqrt prec emax x) = SFsqrt prec emax x \/ x = S754_zero true.
Proof.
  destruct x as [[|]|[|]| |[|] mx ex]; cbn [SFsqrt SFabs]; auto.
  destruct (SFsqrt_core_binary _ _ _ _) as [[mz ez] lz].
  left; apply binary_round_aux_nonneg.
Qed.

Lemma SFcompare_abs_sqrt a x :
  SFcompare a (SFabs (SFsqrt prec emax x))
  = SFcompare a (SFsqrt prec emax x).
Proof.
  destruct (SFsqrt_nonneg x) as [-> | ->]; [reflexivity|].
  destruct a; reflexivity.
Qed.

End SpecFloatFacts.

Lemma abs_sub_comm (a b : float) : abs (a - b)%float = abs (b - a)%float.
Proof.
  apply Prim2SF_inj. rewrite !abs_spec, !sub_spec. apply SFsub_abs_comm.
Qed.

Lemma pow2_sub_comm (lib : Libm) (a b : float) :
  pow2 lib (a - b) = pow2 lib (b - a).
Proof. unfold pow2. now rewrite (abs_sub_comm a b). Qed.

Lemma ltb_abs_sqrt (c x : float) :
  (c <? abs (sqrt x))%float = (c <? sqrt x)%float.
Proof.
  rewrite !ltb_spec, abs_spec, sqrt_spec. unfold SFltb, SF64sqrt.
  now rewrite SFcompare_abs_sqrt.
Qed.

(** ** Machine integer facts *)

Lemma wrap_i32_small z : - 2 ^ 31 <= z < 2 ^ 31 -> wrap_i32 z = z.
Proof.
  intros H. unfold wrap_i32. rewrite Z.mod_small; lia.
Qed.

Lemma wrap_i32_range z : - 2 ^ 31 <= wrap_i32 z < 2 ^ 31.
Proof.
  unfold wrap_i32.
  pose proof (Z.mod_pos_bound (z + 2 ^ 31) (2 ^ 32) ltac:(lia)). lia.
Qed.

(** Negating the operand of a wrap negates the result, [INT_MIN] set apart. *)
Lemma wrap_i32_opp z :
  wrap_i32 (- z) = - wrap_i32 z \/
  (wrap_i32 (- z) = - 2 ^ 31 /\ wrap_i32 z = - 2 ^ 31).
Proof.
  unfold wrap_i32.
  change (2 ^ 31) with 2147483648. change (2 ^ 32) with 4294967296.
  Z.to_euclidean_division_equations. lia.
Qed.

Lemma i32_abs_sub_comm a b : i32_abs (i32_sub a b) = i32_abs (i32_sub b a).
Proof.
  unfold i32_abs, i32_sub.
  replace (b - a) with (- (a - b)) by ring.
  destruct (wrap_i32_opp (a - b)) as [-> | [-> ->]]; [|reflexivity].
  now rewrite Z.abs_opp.
Qed.

Lemma is_ok_true r : is_ok r = true -> r = LE_OK.
Proof. destruct r; simpl; congruence. Qed.

Lemma is_ok_false r : is_ok r = false -> r <> LE_OK.
Proof. destruct r; simpl; congruence. Qed.

(** ** The change tests *)

(** C8, as amended.  Each change test computes the predicate the
    specification gives for its quantity: light level, absolute difference
    above 200, when the difference of the two levels fits an [int] (beyond,
    the subtraction of the test wraps); pressure and temperature, absolute
    difference above 1.0 and 2.0; acceleration and angular velocity,
    Euclidean norm of the per-axis deltas above 1.0 and pi/2, the squares
    being those that [pow] of the C library gives; location, sum of the
    absolute latitude and longitude deltas above 0.01, whatever the
    altitudes and accuracies.  All of it in binary64, for every C
    library. *)
Theorem threshold_tests_compute_spec
    (lib : Libm) (l1 l2 : Z) (p1 p2 t1 t2 : float) (a1 a2 : Acceleration)
    (g1 g2 : Gyro) (loc1 loc2 : Location3d) :
  Z.abs (l1 - l2) < 2 ^ 31 ->
  LightSensorThreshold l1 l2 = Spec.light_changed l1 l2
  /\ PressureSensorThreshold p1 p2 = Spec.abs_difference_exceeds 1 p1 p2
  /\ TemperatureSensorThreshold t1 t2 = Spec.abs_difference_exceeds 2 t1 t2
  /\ AccelerometerThreshold lib a1 a2
     = Spec.norm_of_deltas_exceeds (pow2 lib) 1
         (acc_x a1) (acc_y a1) (acc_z a1) (acc_x a2) (acc_y a2) (acc_z a2)
  /\ GyroThreshold lib g1 g2
     = Spec.norm_of_deltas_exceeds (pow2 lib) (M_PI / 2)
         (gyro_x g1) (gyro_y g1) (gyro_z g1)
         (gyro_x g2) (gyro_y g2) (gyro_z g2)
  /\ GpsThreshold loc1 loc2
     = Spec.location_changed (latitude loc1) (longitude loc1)
                             (latitude loc2) (longitude loc2).
Proof.
  intros Hfit. repeat split.
  - unfold LightSensorThreshold, Spec.light_changed, i32_abs, i32_sub.
    rewrite (wrap_i32_small (l1 - l2)) by lia.
    rewrite wrap_i32_small by lia. reflexivity.
  - unfold AccelerometerThreshold, Spec.norm_of_deltas_exceeds,
      Spec.euclidean_norm.
    cbv zeta. apply ltb_abs_sqrt.
  - unfold GyroThreshold, Spec.norm_of_deltas_exceeds,
      Spec.euclidean_norm.
    cbv zeta. apply ltb_abs_sqrt.
Qed.

Lemma threshold_tests_compute_spec_witness :
  LightSensorThreshold 700 450 = true
  /\ PressureSensorThreshold 1013 1011.5 = true
  /\ TemperatureSensorThreshold 20 20.5 = false
  /\ AccelerometerThreshold bench_libm
       (mkAcceleration 0 0 9.5) (mkAcceleration 3 4 9.5)
     = true
  /\ GyroThreshold bench_libm (mkGyro 0 0 0) (mkGyro 1 1 0) = false
  /\ GpsThreshold (mkLocation3d 48.5 2.25 5 100 8)
                  (mkLocation3d 48.5 2.25 9 250 3) = false.
Proof.
  assert (Hfit : Z.abs (700 - 450) < 2 ^ 31) by (vm_compute; reflexivity).
  pose proof
    (threshold_tests_compute_spec bench_libm 700 450 1013 1011.5 20 20.5
       (mkAcceleration 0 0 9.5) (mkAcceleration 3 4 9.5)
       (mkGyro 0 0 0) (mkGyro 1 1 0)
       (mkLocation3d 48.5 2.25 5 100 8) (mkLocation3d 48.5 2.25 9 250 3)
       Hfit)
    as (Hl & Hp & Ht & Ha & Hg & Hloc).
  rewrite Hl, Hp, Ht, Ha, Hg, Hloc.
  repeat split; vm_compute; reflexivity.
Defined.

(** C8, as stated, fails.  Two light levels of the type of the reading,
    2147483647 and -1: their difference does not fit an [int], the
    subtraction of the test wraps, and the test answers false where the
    absolute difference, 2147483648, is above 200. *)
Lemma light_threshold_overflow_counterexample :
  int32 2147483647 /\ int32 (-1)
  /\ Z.abs (2147483647 - -1) = 2147483648
  /\ LightSensorThreshold 2147483647 (-1) = false
  /\ Spec.light_changed 2147483647 (-1) = true
  /\ LightSensorThreshold 2147483647 (-1)
     <> Spec.light_changed 2147483647 (-1).
Proof.
  unfold int32. repeat split; try (vm_compute; congruence).
Qed.

(** C10.  Every change test gives the same answer when its two arguments are
    swapped, for every C library; so the calls of the handler, which pass
    the value read first and the value recorded second, decide what the
    tests decide on (recorded, read): this holds of the test of every entry
    of [Items]. *)
Theorem threshold_tests_symmetric (lib : Libm) :
  (forall a b, LightSensorThreshold a b = LightSensorThreshold b a)
  /\ (forall a b, PressureSensorThreshold a b = PressureSensorThreshold b a)
  /\ (forall a b,
        TemperatureSensorThreshold a b = TemperatureSensorThreshold b a)
  /\ (forall a b,
        AccelerometerThreshold lib a b = AccelerometerThreshold lib b a)
  /\ (forall a b, GyroThreshold lib a b = GyroThreshold lib b a)
  /\ (forall a b, GpsThreshold a b = GpsThreshold b a)
  /\ Forall (fun e : AnyItem =>
               forall chk, thresholdCheck (projT2 e) = Some chk ->
               forall read_ recorded, chk read_ recorded = chk recorded read_)
            (Items lib).
Proof.
  assert (Hl : forall a b, LightSensorThreshold a b = LightSensorThreshold b a).
  { intros a b. unfold LightSensorThreshold.
    now rewrite i32_abs_sub_comm. }
  assert (Hp : forall a b,
             PressureSensorThreshold a b = PressureSensorThreshold b a).
  { intros a b. unfold PressureSensorThreshold. now rewrite abs_sub_comm. }
  assert (Ht : forall a b,
             TemperatureSensorThreshold a b = TemperatureSensorThreshold b a).
  { intros a b. unfold TemperatureSensorThreshold. now rewrite abs_sub_comm. }
  assert (Ha : forall a b,
             AccelerometerThreshold lib a b = AccelerometerThreshold lib b a).
  { intros a b. unfold AccelerometerThreshold. cbv zeta.
    now rewrite (pow2_sub_comm lib (acc_x a)), (pow2_sub_comm lib (acc_y a)),
      (pow2_sub_comm lib (acc_z a)). }
  assert (Hg : forall a b, GyroThreshold lib a b = GyroThreshold lib b a).
  { intros a b. unfold GyroThreshold. cbv zeta.
    now rewrite (pow2_sub_comm lib (gyro_x a)),
      (pow2_sub_comm lib (gyro_y a)), (pow2_sub_comm lib (gyro_z a)). }
  assert (Hloc : forall a b, GpsThreshold a b = GpsThreshold b a).
  { intros a b. unfold GpsThreshold. cbv zeta.
    now rewrite (abs_sub_comm (latitude b)), (abs_sub_comm (longitude b)). }
  repeat split; auto.
  unfold Items.
  repeat constructor; simpl; intros chk Hchk; try discriminate;
    injection Hchk as <-; auto.
Qed.

(** ** Recording composite readings *)

(** Decide the answer of the data service to the next sub-field. *)
Ltac next_answer :=
  match goal with
  | |- context [negb (is_ok ?r)] =>
      let E := fresh "E" in
      let E' := fresh "E" in
      destruct (is_ok r) eqn:E;
      [ apply is_ok_true in E as E' | apply is_ok_false in E as E' ]
  end.

Ltac count_calls :=
  rewrite ?length_app; cbn [List.length Nat.add];
  rewrite ?Nat.add_succ_r, ?Nat.add_0_r.

Ltac composite_record :=
  intros [answer pushes made kept pushed logged];
  unfold bindP, retP, le_avdata_RecordFloat, avdata_record, LE_ERROR, log_msg;
  cbn [recordCalls RecordRef record_result push_result pushCalls syslog
       first_failure List.length];
  repeat (count_calls; next_answer;
          cbn [negb recordCalls RecordRef record_result push_result pushCalls
               syslog]);
  repeat split; rewrite <- ?app_assoc, ?app_nil_r; simpl; auto.

(** C9.  Recording an acceleration, an angular velocity or a location
    appends one entry per sub-field in a fixed order (X, Y, Z; latitude,
    longitude, horizontal accuracy, altitude, vertical accuracy); when the
    data service refuses a sub-field, the following ones are not attempted,
    the code of that refusal is the result, and the sub-fields accepted
    before it remain in the record. *)
Theorem composite_record_stops_at_first_failure
    (ts : Z) (a : Acceleration) (g : Gyro) (l : Location3d) :
  appends_until_failure (AccelerometerFields ts a) (AccelerometerRecord ts a)
  /\ appends_until_failure (GyroFields ts g) (GyroRecord ts g)
  /\ appends_until_failure (GpsFields ts l) (GpsRecord ts l).
Proof.
  unfold appends_until_failure, AccelerometerFields, GyroFields, GpsFields,
    AccelerometerRecord, GyroRecord, GpsRecord.
  repeat split; composite_record.
Qed.

(** ** The sampling pass *)

Ltac run_handler :=
  unfold sample_item, stale_item, bind, invoke, lift, ret.

Ltac split_on_force :=
  match goal with
  | |- context [max_interval_force ?n ?l ?i] =>
      let Hforce := fresh "Hforce" in
      destruct (max_interval_force n l i) eqn:Hforce
  end.

(** The first loop handles its entries one by one, in order. *)
Lemma sample_loop_samples_every_entry
    (hw : Sensors) (now ltp : Z) (its : list AnyItem) :
  forall publish w its' publish' w',
    sample_loop hw now ltp its publish w = Some (its', publish', w') ->
    Forall2
      (fun e e' : AnyItem =>
         exists T (it it' : Item T) pub pub' wa wb,
           e = any it /\ e' = any it'
           /\ sample_item hw now ltp it pub wa = Some (it', pub', wb))
      its its'.
Proof.
  induction its as [|[T it] rest IH]; intros publish w its' publish' w'.
  - intros [= <- _ _]. constructor.
  - cbn [sample_loop]. unfold bind at 1.
    destruct (sample_item hw now ltp it publish w)
      as [[[it1 pub1] w1]|] eqn:Hitem; [|discriminate].
    unfold bind at 1.
    destruct (sample_loop hw now ltp rest pub1 w1)
      as [[[rest1 pub2] w2]|] eqn:Hrest; [|discriminate].
    intros [= <- _ _]. constructor.
    + now exists T, it, it1, publish, pub1, w, w1.
    + eapply IH, Hrest.
Qed.

(** C7.  The first successful read of a descriptor is always recorded: with
    [lastTimeRecorded] at 0, the sentinel of "never recorded", a successful
    read is followed by the call of [record] with the value read and the
    time of the tick, and [thresholdCheck] is not called (it may even be
    null). *)
Theorem first_reading_recorded_without_threshold
    (hw : Sensors) (now ltp : Z) (T : Type) (it : Item T) (publish : bool)
    (w : World) rd v rec cp r p' :
  lastTimeRecorded it = 0 ->
  read it = Some rd ->
  rd hw (lastValueRead it) = (LE_OK, v) ->
  record it = Some rec ->
  copyValue it = Some cp ->
  rec now v (platform w) = (r, p') ->
  exists it' publish' w',
    sample_item hw now ltp it publish w = Some (it', publish', w')
    /\ calls w' =
         calls w ++ [mkCall (name it) OpRead; mkCall (name it) (OpRecord now)]
                 ++ (if is_ok r then [mkCall (name it) OpCopyValue] else [])
    /\ lastValueRead it' = v /\ lastTimeRead it' = now
    /\ (r = LE_OK ->
        platform w' = p'
        /\ lastValueRecorded it' = cp (lastValueRecorded it) v
        /\ publish' = true).
Proof.
  intros Hnever Hread Hrd Hrec Hcp Hrun.
  run_handler.
  rewrite Hread, Hrd. cbn -[String.append].
  rewrite Hnever. cbn -[String.append].
  rewrite Hrec. cbn -[String.append]. rewrite Hrun.
  destruct (is_ok r) eqn:Hr; cbn -[String.append]; rewrite ?Hcp;
    cbn -[String.append]; split_on_force;
    do 3 eexists; (split; [reflexivity|]); cbn [calls];
    rewrite <- ?app_assoc; repeat split; auto;
    try (subst r; discriminate).
Qed.

Lemma first_reading_recorded_without_threshold_witness :
  exists it' publish' w',
    sample_item (bench (LE_OK, 20%float)) t0 0 temperatureItem false boot
    = Some (it', publish', w')
    /\ calls w' = [mkCall "temperature" OpRead;
                   mkCall "temperature" (OpRecord t0);
                   mkCall "temperature" OpCopyValue]
    /\ lastValueRead it' = 20%float /\ lastTimeRead it' = t0
    /\ (LE_OK = LE_OK ->
        platform w' = snd (TemperatureSensorRecord t0 20%float service_ok)
        /\ lastValueRecorded it' = 20%float
        /\ publish' = true).
Proof.
  exact (first_reading_recorded_without_threshold
           (bench (LE_OK, 20%float)) t0 0 float temperatureItem false boot
           TemperatureSensorRead 20%float TemperatureSensorRecord
           TemperatureSensorCopyValue LE_OK
           (snd (TemperatureSensorRecord t0 20%float service_ok))
           eq_refl eq_refl eq_refl eq_refl eq_refl eq_refl).
Defined.

(** X5.  A failed read is logged and the entry is left as it is, the slot
    the driver was handed apart: nothing is recorded for it on this tick. *)
Lemma read_failure_skips_entry
    (hw : Sensors) (now ltp : Z) (T : Type) (it : Item T) (publish : bool)
    (w : World) rd r v :
  read it = Some rd ->
  rd hw (lastValueRead it) = (r, v) ->
  r <> LE_OK ->
  sample_item hw now ltp it publish w
  = Some (set_lastValueRead it v,
          max_interval_force now ltp (set_lastValueRead it v) || publish,
          {| platform :=
               snd (LE_WARN ("Failed to read " ++ name it)%string
                      (platform w));
             calls := calls w ++ [mkCall (name it) OpRead] |}).
Proof.
  intros Hread Hrd Hfail.
  assert (Hr : is_ok r = false) by (destruct r; try reflexivity; congruence).
  run_handler. rewrite Hread, Hrd. cbn -[String.append].
  rewrite Hr. cbn -[String.append].
  split_on_force; reflexivity.
Qed.

(** X6.  The first loop never writes [lastTimeRecorded]. *)
Lemma sample_item_keeps_lastTimeRecorded
    (hw : Sensors) (now ltp : Z) (T : Type) (it it' : Item T)
    (publish publish' : bool) (w w' : World) :
  sample_item hw now ltp it publish w = Some (it', publish', w') ->
  lastTimeRecorded it' = lastTimeRecorded it.
Proof.
  run_handler.
  destruct (read it) as [rd|]; [|discriminate].
  destruct (rd hw (lastValueRead it)) as [r v].
  cbn -[String.append].
  destruct (is_ok r); cbn -[String.append].
  - destruct (lastTimeRecorded it =? 0); cbn -[String.append].
    2: destruct (thresholdCheck it) as [chk|]; [|discriminate];
       cbn -[String.append];
       destruct (chk v (lastValueRecorded it)); cbn -[String.append].
    1,2: destruct (record it) as [rec|]; [|discriminate];
         cbn -[String.append];
         destruct (rec now v (platform w)) as [r' p'];
         destruct (is_ok r'); cbn -[String.append];
         [destruct (copyValue it) as [cp|]; [|discriminate];
          cbn -[String.append]|].
    all: split_on_force; intros [= <- _ _]; reflexivity.
  - split_on_force; intros [= <- _ _]; reflexivity.
Qed.

(** C2.  The temperature entry, never recorded, sampled at [t0] with a read
    of 20.0 and a data service that accepts the record: the reading is
    recorded, it is copied to [lastValueRecorded] and a publish is wanted,
    but [lastTimeRecorded] is still 0 and not the time of the tick. *)
Theorem sampler_leaves_lastTimeRecorded :
  match sample_item (bench (LE_OK, 20%float)) t0 0 temperatureItem false boot
  with
  | Some (it', publish', w') =>
      recordCalls (platform w')
      = [mkEntry "MangOH.Sensors.Pressure.Temperature" (FloatVal 20) t0]
      /\ RecordRef (platform w') = recordCalls (platform w')
      /\ lastValueRecorded it' = 20%float
      /\ publish' = true
      /\ lastTimeRecorded it' = 0
      /\ lastTimeRecorded it' <> t0
  | None => False
  end.
Proof.
  vm_compute. repeat split; discriminate.
Qed.

Ltac decide_recorded :=
  simpl; split;
  [ intros Hin;
    repeat (destruct Hin as [Hin|Hin]; [try discriminate|]);
    try contradiction;
    try (split; [now apply is_ok_true|reflexivity])
  | intros [Hok Hexc]; try discriminate; try (subst; discriminate); auto ].

(** C3, as amended.  A descriptor that has been recorded
    ([lastTimeRecorded] not 0) is recorded again by the sampling pass of a
    tick if and only if the read of that tick succeeds and
    [thresholdCheck], called on the value read and the value last recorded,
    holds.  The call of [record] is then made with the time of the tick and
    the value just read, on the record as it stands: the platform after the
    pass is the one that call leaves (with a warning when it fails), and
    the value read is copied to [lastValueRecorded] when it succeeds.  With
    no call of [record] the platform is untouched, but for the warning of a
    failed read, and so is [lastValueRecorded].  The max-interval condition
    does not record: it makes the tick want a publish. *)
Theorem rerecorded_iff_threshold_exceeded
    (hw : Sensors) (now ltp : Z) (T : Type) (it : Item T) (publish : bool)
    (w : World) rd r v chk rec cp :
  lastTimeRecorded it <> 0 ->
  read it = Some rd ->
  rd hw (lastValueRead it) = (r, v) ->
  thresholdCheck it = Some chk ->
  record it = Some rec ->
  copyValue it = Some cp ->
  exists it' publish' w' evs,
    sample_item hw now ltp it publish w = Some (it', publish', w')
    /\ calls w' = calls w ++ evs
    /\ (In (mkCall (name it) (OpRecord now)) evs
        <-> r = LE_OK /\ chk v (lastValueRecorded it) = true)
    /\ (max_interval_force now ltp it' = true -> publish' = true)
    /\ (if is_ok r && chk v (lastValueRecorded it) then
          let (r', p') := rec now v (platform w) in
          if is_ok r' then
            platform w' = p'
            /\ it' = set_lastValueRecorded
                       (set_lastTimeRead (set_lastValueRead it v) now)
                       (cp (lastValueRecorded it) v)
            /\ publish' = true
          else
            platform w'
            = snd (LE_WARN ("Failed to record " ++ name it)%string p')
            /\ it' = set_lastTimeRead (set_lastValueRead it v) now
            /\ publish' = max_interval_force now ltp it' || publish
        else
          platform w'
          = (if is_ok r then platform w
             else snd (LE_WARN ("Failed to read " ++ name it)%string
                         (platform w)))
          /\ it' = (if is_ok r
                    then set_lastTimeRead (set_lastValueRead it v) now
                    else set_lastValueRead it v)
          /\ publish' = max_interval_force now ltp it' || publish).
Proof.
  intros Hsome Hread Hrd Hchk Hrec Hcp.
  apply Z.eqb_neq in Hsome.
  run_handler.
  rewrite Hread, Hrd. cbn -[String.append].
  destruct (is_ok r) eqn:Hr; cbn -[String.append];
    [ rewrite Hsome, Hchk; cbn -[String.append];
      destruct (chk v (lastValueRecorded it)) eqn:Hthr; cbn -[String.append];
      [ rewrite Hrec; cbn -[String.append];
        destruct (rec now v (platform w)) as [r' p'] eqn:Hrun;
        destruct (is_ok r') eqn:Hr'; cbn -[String.append];
        rewrite ?Hcp; cbn -[String.append] | ] | ].
  all: split_on_force.
  all: eexists _, _, _, _; (split; [reflexivity|]); cbn [calls platform];
    rewrite <- ?app_assoc; (split; [reflexivity|]); split;
    [ decide_recorded
    | split;
      [ try reflexivity; try (rewrite Hforce; discriminate)
      | rewrite ?Hr'; cbn -[String.append];
        rewrite ?Hforce; repeat split; reflexivity ] ].
Qed.

Lemma rerecorded_iff_threshold_exceeded_witness :
  exists it' publish' w' evs,
    sample_item (bench (LE_OK, 23.5%float)) (t0 + 1000) t0
                (temperatureAt 20 20 t0 t0) false boot
    = Some (it', publish', w')
    /\ calls w' = evs
    /\ (In (mkCall "temperature" (OpRecord (t0 + 1000))) evs
        <-> LE_OK = LE_OK /\ TemperatureSensorThreshold 23.5 20 = true)
    /\ (max_interval_force (t0 + 1000) t0 it' = true -> publish' = true)
    /\ platform w'
       = service LE_OK LE_OK
           [mkEntry "MangOH.Sensors.Pressure.Temperature" (FloatVal 23.5)
                    (t0 + 1000)]
           [mkEntry "MangOH.Sensors.Pressure.Temperature" (FloatVal 23.5)
                    (t0 + 1000)]
    /\ it' = temperatureAt 23.5 23.5 (t0 + 1000) t0
    /\ publish' = true.
Proof.
  assert (Hsome : lastTimeRecorded (temperatureAt 20 20 t0 t0) <> 0)
    by (vm_compute; discriminate).
  exact (rerecorded_iff_threshold_exceeded
           (bench (LE_OK, 23.5%float)) (t0 + 1000) t0 float
           (temperatureAt 20 20 t0 t0) false boot
           TemperatureSensorRead LE_OK 23.5%float TemperatureSensorThreshold
           TemperatureSensorRecord TemperatureSensorCopyValue
           Hsome eq_refl eq_refl eq_refl eq_refl eq_refl).
Defined.

(** C3, as stated, fails.  The temperature entry recorded at [t0] with 20.0
    and read again 130 s later with 20.0: the threshold is not exceeded, the
    max-interval condition holds, and the sampling pass makes no call to
    [record]. *)
Lemma rerecorded_on_force_counterexample :
  let it := temperatureAt 20 20 t0 t0 in
  let now := t0 + 130000 in
  lastTimeRecorded it <> 0
  /\ exists it' publish' w',
       sample_item (bench (LE_OK, 20%float)) now t0 it false boot
       = Some (it', publish', w')
       /\ max_interval_force now t0 it' = true
       /\ recordCalls (platform w') = []
       /\ ~ (In (mkCall "temperature" (OpRecord now)) (calls w')
             <-> TemperatureSensorThreshold (lastValueRecorded it')
                                            (lastValueRead it') = true
                 \/ max_interval_force now t0 it' = true).
Proof.
  cbv zeta. split; [vm_compute; discriminate|].
  eexists _, _, _. split; [vm_compute; reflexivity|].
  split; [vm_compute; reflexivity|]. split; [reflexivity|].
  intros [_ Hback].
  assert (Hin : In (mkCall "temperature" (OpRecord (t0 + 130000)))
                   [mkCall "temperature" OpRead;
                    mkCall "temperature" OpThresholdCheck])
    by (apply Hback; right; vm_compute; reflexivity).
  simpl in Hin. destruct Hin as [H|[H|[]]]; discriminate.
Qed.

(** ** The staleness sweep *)

(** The second loop handles its entries one by one, in order. *)
Lemma stale_loop_sweeps_every_entry (now : Z) (its : list AnyItem) :
  forall w its' w',
    stale_loop now its w = Some (its', w') ->
    Forall2
      (fun e e' : AnyItem =>
         exists T (it it' : Item T) wa wb,
           e = any it /\ e' = any it'
           /\ stale_item now it wa = Some (it', wb))
      its its'.
Proof.
  induction its as [|[T it] rest IH]; intros w its' w'.
  - intros [= <- _]. constructor.
  - cbn [stale_loop]. unfold bind at 1.
    destruct (stale_item now it w) as [[it1 w1]|] eqn:Hitem; [|discriminate].
    unfold bind at 1.
    destruct (stale_loop now rest w1) as [[rest1 w2]|] eqn:Hrest;
      [|discriminate].
    intros [= <- _]. constructor.
    + now exists T, it, it1, w, w1.
    + eapply IH, Hrest.
Qed.

(** C5, as amended.  In the sweep that precedes a push, a descriptor whose
    last record is older than [TimeToStale] and whose last read is newer
    than its last record has [record] called on [lastValueRead] with the
    timestamp [lastTimeRead], whatever its threshold.  When the record
    succeeds, the value is copied to [lastValueRecorded] and
    [lastTimeRecorded] becomes [lastTimeRead]; when it fails, a warning is
    logged and the descriptor is unchanged. *)
Theorem stale_entry_recorded_at_lastTimeRead
    (now : Z) (T : Type) (it : Item T) (w : World) rec cp r p' :
  TimeToStale * 1000 < u64_sub now (lastTimeRecorded it) ->
  lastTimeRecorded it < lastTimeRead it ->
  record it = Some rec ->
  copyValue it = Some cp ->
  rec (lastTimeRead it) (lastValueRead it) (platform w) = (r, p') ->
  exists it' w',
    stale_item now it w = Some (it', w')
    /\ if is_ok r then
         it' = set_lastTimeRecorded
                 (set_lastValueRecorded it
                    (cp (lastValueRecorded it) (lastValueRead it)))
                 (lastTimeRead it)
         /\ w' = {| platform := p';
                    calls := calls w
                             ++ [mkCall (name it) (OpRecord (lastTimeRead it));
                                 mkCall (name it) OpCopyValue] |}
       else
         it' = it
         /\ w' = {| platform :=
                      snd (LE_WARN ("Failed to record " ++ name it)%string p');
                    calls := calls w
                             ++ [mkCall (name it)
                                        (OpRecord (lastTimeRead it))] |}.
Proof.
  intros Hold Hfresh Hrec Hcp Hrun.
  run_handler. unfold is_stale.
  apply Z.ltb_lt in Hold, Hfresh. rewrite Hold, Hfresh, Hrec.
  cbn -[String.append]. rewrite Hrun.
  destruct (is_ok r); cbn -[String.append]; rewrite ?Hcp;
    cbn -[String.append]; rewrite <- ?app_assoc;
    eexists _, _; split; try reflexivity; split; reflexivity.
Qed.

Lemma stale_entry_recorded_at_lastTimeRead_witness :
  exists it' w',
    stale_item (t0 + 130000) (temperatureAt 20.5 20 (t0 + 70000) t0) boot
    = Some (it', w')
    /\ it' = temperatureAt 20.5 20.5 (t0 + 70000) (t0 + 70000)
    /\ w' = {| platform :=
                 snd (TemperatureSensorRecord (t0 + 70000) 20.5%float
                        service_ok);
               calls := [mkCall "temperature" (OpRecord (t0 + 70000));
                         mkCall "temperature" OpCopyValue] |}.
Proof.
  assert (Hold : TimeToStale * 1000
                 < u64_sub (t0 + 130000)
                     (lastTimeRecorded
                        (temperatureAt 20.5 20 (t0 + 70000) t0)))
    by (vm_compute; reflexivity).
  assert (Hfresh : lastTimeRecorded (temperatureAt 20.5 20 (t0 + 70000) t0)
                   < lastTimeRead (temperatureAt 20.5 20 (t0 + 70000) t0))
    by (vm_compute; reflexivity).
  exact (stale_entry_recorded_at_lastTimeRead
           (t0 + 130000) float (temperatureAt 20.5 20 (t0 + 70000) t0) boot
           TemperatureSensorRecord TemperatureSensorCopyValue LE_OK
           (snd (TemperatureSensorRecord (t0 + 70000) 20.5%float service_ok))
           Hold Hfresh eq_refl eq_refl eq_refl).
Defined.

(** C5, as stated, fails.  The temperature entry recorded at [t0], read at
    [t0 + 70 s] and swept at [t0 + 130 s]: the record succeeds and
    [lastTimeRecorded] becomes the time of the read, not the time of the
    tick. *)
Lemma stale_entry_time_counterexample :
  let it := temperatureAt 20.5 20 (t0 + 70000) t0 in
  let now := t0 + 130000 in
  is_stale now it = true
  /\ exists it' w',
       stale_item now it boot = Some (it', w')
       /\ recordCalls (platform w')
          = [mkEntry "MangOH.Sensors.Pressure.Temperature" (FloatVal 20.5)
                     (t0 + 70000)]
       /\ RecordRef (platform w') = recordCalls (platform w')
       /\ lastValueRecorded it' = 20.5%float
       /\ lastTimeRecorded it' = t0 + 70000
       /\ lastTimeRecorded it' <> now.
Proof.
  cbv zeta. split; [vm_compute; reflexivity|].
  eexists _, _. split; [vm_compute; reflexivity|].
  repeat split; vm_compute; discriminate.
Qed.

(** The handler reaches that state from the initial state of a registry
    holding the temperature entry: a first tick at [t0], a tick 70 s later
    whose reading stays under the threshold, and a tick 60 s after that
    whose read fails. *)
Lemma stale_entry_time_reached :
  match run_ticks [ (bench (LE_OK, 20%float), t0);
                    (bench (LE_OK, 20.5%float), t0 + 70000) ]
                  (mkState [any temperatureItem] false 0) boot with
  | Some (s, w) =>
      items s = [any (temperatureAt 20.5 20 (t0 + 70000) t0)]
      /\ match SampleTimerHandler (bench (LE_FAULT, 20.5%float))
                 (t0 + 130000) s w with
         | Some (s', w') =>
             items s'
             = [any (temperatureAt 20.5 20.5 (t0 + 70000) (t0 + 70000))]
             /\ LastTimePublished s' = t0 + 130000
         | None => False
         end
  | None => False
  end.
Proof.
  vm_compute. repeat split.
Qed.

(** ** The publish scheduler *)

(** C6.  When the handler pushes the record (a publish is wanted or
    deferred, and the rate limit does not hold it back), the push follows
    the sweep; if the push succeeds, [LastTimePublished] becomes the time of
    the tick and [DeferredPublish] is cleared; if it fails, one error is
    logged and [LastTimePublished] and [DeferredPublish] are what they
    were. *)
Theorem flush_result_sets_publish_state
    (hw : Sensors) (now : Z) (s : State) (w : World)
    its publish w1 its2 w2 :
  sample_loop hw now (LastTimePublished s) (items s) false w
  = Some (its, publish, w1) ->
  publish || DeferredPublish s = true ->
  (u64_sub now (LastTimePublished s) <? MinIntervalBetweenPublish) = false ->
  stale_loop now its w1 = Some (its2, w2) ->
  exists s' w',
    SampleTimerHandler hw now s w = Some (s', w')
    /\ items s' = its2
    /\ calls w' = calls w2
    /\ pushCalls (platform w')
       = pushCalls (platform w2) ++ [RecordRef (platform w2)]
    /\ let r := push_result (platform w2)
                  (List.length (pushCalls (platform w2))) in
       if is_ok r then
         LastTimePublished s' = now
         /\ DeferredPublish s' = false
         /\ syslog (platform w') = syslog (platform w2)
       else
         LastTimePublished s' = LastTimePublished s
         /\ DeferredPublish s' = DeferredPublish s
         /\ syslog (platform w')
            = syslog (platform w2)
              ++ [(ERROR, ("Failed to push record - "
                             ++ LE_RESULT_TXT r)%string)].
Proof.
  intros Hsample Hwanted Hgate Hsweep.
  unfold SampleTimerHandler, bind.
  rewrite Hsample, Hwanted, Hgate, Hsweep.
  unfold lift, le_avdata_PushRecord, ret. cbn -[String.append].
  destruct (is_ok (push_result (platform w2)
                     (List.length (pushCalls (platform w2))))) eqn:Hr;
    cbn -[String.append]; eexists _, _; (split; [reflexivity|]);
    cbn -[String.append]; rewrite ?Hr; repeat split.
Qed.

Lemma flush_result_sets_publish_state_witness :
  exists s' w',
    SampleTimerHandler (bench (LE_OK, 20%float)) t0
      (mkState [any temperatureItem] true 0)
      (mkWorld (service LE_OK LE_FAULT [] []) [])
    = Some (s', w')
    /\ items s' = [any (temperatureAt 20 20 t0 t0)]
    /\ LastTimePublished s' = 0
    /\ DeferredPublish s' = true
    /\ syslog (platform w') = [(ERROR, "Failed to push record - LE_FAULT")].
Proof.
  pose (e := mkEntry "MangOH.Sensors.Pressure.Temperature" (FloatVal 20) t0).
  pose (sampled := [mkCall "temperature" OpRead;
                    mkCall "temperature" (OpRecord t0);
                    mkCall "temperature" OpCopyValue]).
  pose (swept := sampled ++ [mkCall "temperature" (OpRecord t0);
                             mkCall "temperature" OpCopyValue]).
  destruct (flush_result_sets_publish_state
              (bench (LE_OK, 20%float)) t0
              (mkState [any temperatureItem] true 0)
              (mkWorld (service LE_OK LE_FAULT [] []) [])
              [any (temperatureAt 20 20 t0 0)] true
              (mkWorld (service LE_OK LE_FAULT [e] [e]) sampled)
              [any (temperatureAt 20 20 t0 t0)]
              (mkWorld (service LE_OK LE_FAULT [e; e] [e; e]) swept)
              eq_refl eq_refl eq_refl eq_refl)
    as (s' & w' & Hrun & Hitems & _ & _ & Hstate).
  cbn in Hstate. destruct Hstate as (Hlast & Hdeferred & Hlog).
  exists s', w'. repeat split; assumption.
Defined.

(** X10.  The rate limit as the handler has it: with a publish wanted or
    deferred and fewer than [MinIntervalBetweenPublish] units of the
    millisecond clock since the last publish, the handler defers, and
    neither sweeps nor pushes. *)
Lemma publish_deferred_within_min_interval
    (hw : Sensors) (now : Z) (s : State) (w : World) its publish w1 :
  sample_loop hw now (LastTimePublished s) (items s) false w
  = Some (its, publish, w1) ->
  publish || DeferredPublish s = true ->
  u64_sub now (LastTimePublished s) < MinIntervalBetweenPublish ->
  SampleTimerHandler hw now s w
  = Some ({| items := its;
             DeferredPublish := true;
             LastTimePublished := LastTimePublished s |}, w1).
Proof.
  intros Hsample Hwanted Hgate. apply Z.ltb_lt in Hgate.
  unfold SampleTimerHandler, bind. now rewrite Hsample, Hwanted, Hgate.
Qed.

(** C1.  The five entries of [Items] that have a [read], a first tick when
    the clock reads 1700000000 s and a second tick one second later, on
    which the temperature has moved from 20.0 to 25.0: both ticks push the
    record, so that two pushes are less than [MinIntervalBetweenPublish]
    seconds apart.  The handler compares the elapsed milliseconds with
    [MinIntervalBetweenPublish] itself. *)
Theorem flush_one_second_after_flush (lib : Libm) :
  GetCurrentTimestamp 1700000001 0 = t0 + 1000
  /\ match run_ticks [(bench (LE_OK, 20%float), t0)]
                     (mkState (tl (Items lib)) false 0) boot with
     | Some (s1, w1) =>
         LastTimePublished s1 = t0
         /\ List.length (pushCalls (platform w1)) = 1%nat
         /\ match SampleTimerHandler (bench (LE_OK, 25%float))
                    (GetCurrentTimestamp 1700000001 0) s1 w1 with
            | Some (s2, w2) =>
                LastTimePublished s2 = t0 + 1000
                /\ DeferredPublish s2 = false
                /\ List.length (pushCalls (platform w2)) = 2%nat
                /\ LastTimePublished s2 - LastTimePublished s1
                   < MinIntervalBetweenPublish * 1000
            | None => False
            end
     | None => False
     end.
Proof.
  vm_compute. repeat split.
Qed.

(** ** The registry *)

(** C4.  The first entry of [Items], the light level, has neither a [read]
    nor a [thresholdCheck]: the handler calls a null pointer on the first
    entry of its first loop, at every tick. *)
Theorem light_level_entry_has_null_read (lib : Libm) :
  nth_error (Items lib) 0 = Some (any lightLevelItem)
  /\ read lightLevelItem = None
  /\ thresholdCheck lightLevelItem = None
  /\ forall hw now w, SampleTimerHandler hw now (initial_state lib) w = None.
Proof.
  repeat split.
Qed.

(** * Further properties *)

(** ** The clock *)

(** X1.  For a time of day that [gettimeofday] can give (seconds not
    negative, microseconds under a million) and whose milliseconds fit 64
    bits, [GetCurrentTimestamp] is the number of whole milliseconds since
    the epoch: nothing wraps, and the result lies in the second read. *)
Theorem GetCurrentTimestamp_milliseconds (tv_sec tv_usec : Z) :
  0 <= tv_sec ->
  0 <= tv_usec < 1000000 ->
  tv_sec * 1000 + 999 < 2 ^ 64 ->
  GetCurrentTimestamp tv_sec tv_usec = tv_sec * 1000 + tv_usec / 1000
  /\ tv_sec * 1000 <= GetCurrentTimestamp tv_sec tv_usec < (tv_sec + 1) * 1000.
Proof.
  intros Hsec Husec Hfit.
  assert (Hms : 0 <= tv_usec / 1000 <= 999).
  { split; [apply Z.div_pos; lia|].
    apply Z.lt_succ_r. apply Z.div_lt_upper_bound; lia. }
  unfold GetCurrentTimestamp, wrap_u64.
  rewrite (Z.mod_small tv_sec), (Z.mod_small tv_usec),
    (Z.mod_small (tv_sec * 1000)), Z.mod_small; lia.
Qed.

Lemma GetCurrentTimestamp_milliseconds_witness :
  GetCurrentTimestamp 1700000000 123456 = 1700000000 * 1000 + 123456 / 1000
  /\ 1700000000 * 1000 <= GetCurrentTimestamp 1700000000 123456
     < (1700000000 + 1) * 1000.
Proof.
  apply GetCurrentTimestamp_milliseconds; vm_compute; intuition discriminate.
Defined.

(** ** A value against itself *)

Section ZeroOrNan.

Variables prec emax : Z.

Lemma SFsub_diag x : zero_or_nan (SFsub prec emax x x) = true.
Proof.
  destruct x as [[|]|[|]| |s m e]; simpl; try reflexivity.
  rewrite Z.sub_diag. reflexivity.
Qed.

Lemma SFmul_zero_or_nan x y :
  zero_or_nan x = true -> zero_or_nan y = true ->
  zero_or_nan (SFmul prec emax x y) = true.
Proof. destruct x, y; simpl; try discriminate; reflexivity. Qed.

Lemma SFadd_zero_or_nan x y :
  zero_or_nan x = true -> zero_or_nan y = true ->
  zero_or_nan (SFadd prec emax x y) = true.
Proof.
  destruct x as [[|]| | |], y as [[|]| | |]; simpl; try discriminate;
    reflexivity.
Qed.

Lemma SFsqrt_zero_or_nan x :
  zero_or_nan x = true -> zero_or_nan (SFsqrt prec emax x) = true.
Proof. destruct x; simpl; try discriminate; reflexivity. Qed.

Lemma SFabs_zero_or_nan x :
  zero_or_nan x = true -> zero_or_nan (SFabs x) = true.
Proof. destruct x; simpl; try discriminate; reflexivity. Qed.

Lemma SFltb_zero_or_nan m e x :
  zero_or_nan x = true -> SFltb (S754_finite false m e) x = false.
Proof. destruct x; simpl; try discriminate; reflexivity. Qed.

End ZeroOrNan.

Lemma null_delta_sub_diag a : null_delta (a - a).
Proof. unfold null_delta. rewrite sub_spec. apply SFsub_diag. Qed.

Lemma null_delta_pow2 (lib : Libm) a :
  null_delta a -> null_delta (pow2 lib a).
Proof.
  unfold null_delta, pow2. cbv zeta. rewrite classify_spec, abs_spec.
  destruct (Prim2SF a) as [sg|sg| |sg m e]; try discriminate; intros _;
    reflexivity.
Qed.

Lemma null_delta_add a b : null_delta a -> null_delta b -> null_delta (a + b).
Proof. unfold null_delta. rewrite add_spec. apply SFadd_zero_or_nan. Qed.

Lemma null_delta_sqrt a : null_delta a -> null_delta (sqrt a).
Proof. unfold null_delta. rewrite sqrt_spec. apply SFsqrt_zero_or_nan. Qed.

Lemma null_delta_abs a : null_delta a -> null_delta (abs a).
Proof. unfold null_delta. rewrite abs_spec. apply SFabs_zero_or_nan. Qed.

(** No positive finite bound is under a zero or a NaN. *)
Lemma ltb_null_delta c a m e :
  Prim2SF c = S754_finite false m e -> null_delta a -> (c <? a)%float = false.
Proof.
  unfold null_delta. intros Hc Ha. rewrite ltb_spec, Hc.
  now apply SFltb_zero_or_nan.
Qed.

(** X2.  No change test holds between a value and itself, whatever the
    value (NaN and the infinities included).  So, for every entry of
    [Items], the test the handler calls is false between a value read and
    the copy of it that [copyValue] leaves in [lastValueRecorded]: a
    reading equal to the one just recorded is not recorded again. *)
Theorem same_value_never_exceeds_threshold (lib : Libm) :
  (forall v, LightSensorThreshold v v = false)
  /\ (forall v, PressureSensorThreshold v v = false)
  /\ (forall v, TemperatureSensorThreshold v v = false)
  /\ (forall v, AccelerometerThreshold lib v v = false)
  /\ (forall v, GyroThreshold lib v v = false)
  /\ (forall v, GpsThreshold v v = false)
  /\ Forall (fun e : AnyItem =>
               forall chk cp,
                 thresholdCheck (projT2 e) = Some chk ->
                 copyValue (projT2 e) = Some cp ->
                 forall recorded read_, chk read_ (cp recorded read_) = false)
            (Items lib).
Proof.
  assert (Hl : forall v, LightSensorThreshold v v = false).
  { intros v. unfold LightSensorThreshold, i32_abs, i32_sub.
    rewrite Z.sub_diag. reflexivity. }
  assert (Hp : forall v, PressureSensorThreshold v v = false).
  { intros v. unfold PressureSensorThreshold.
    eapply ltb_null_delta; [reflexivity|].
    apply null_delta_abs, null_delta_sub_diag. }
  assert (Ht : forall v, TemperatureSensorThreshold v v = false).
  { intros v. unfold TemperatureSensorThreshold.
    eapply ltb_null_delta; [reflexivity|].
    apply null_delta_abs, null_delta_sub_diag. }
  assert (Ha : forall v, AccelerometerThreshold lib v v = false).
  { intros v. unfold AccelerometerThreshold. cbv zeta.
    eapply ltb_null_delta; [reflexivity|].
    apply null_delta_abs, null_delta_sqrt.
    repeat apply null_delta_add; apply null_delta_pow2, null_delta_sub_diag. }
  assert (Hg : forall v, GyroThreshold lib v v = false).
  { intros v. unfold GyroThreshold. cbv zeta.
    eapply ltb_null_delta; [vm_compute; reflexivity|].
    apply null_delta_abs, null_delta_sqrt.
    repeat apply null_delta_add; apply null_delta_pow2, null_delta_sub_diag. }
  assert (Hloc : forall v, GpsThreshold v v = false).
  { intros v. unfold GpsThreshold. cbv zeta.
    eapply ltb_null_delta; [reflexivity|].
    apply null_delta_add; apply null_delta_abs, null_delta_sub_diag. }
  repeat split; auto.
  unfold Items.
  repeat constructor; simpl; intros chk cp Hchk Hcp; try discriminate;
    injection Hchk as <-; injection Hcp as <-; intros recorded read_.
  - apply Hp.
  - apply Ht.
  - destruct read_; apply Ha.
  - destruct read_; apply Hg.
  - destruct read_; apply Hloc.
Qed.

(** ** Recording scalar readings, and the log of the record functions *)

Ltac scalar_record :=
  intros [answer pushes made kept pushed logged];
  unfold bindP, retP, le_avdata_RecordFloat, le_avdata_RecordInt,
    avdata_record, LE_ERROR, log_msg;
  cbn [recordCalls RecordRef record_result push_result pushCalls syslog
       first_failure List.length];
  next_answer;
  cbn [negb recordCalls RecordRef record_result push_result pushCalls
       syslog];
  repeat split; rewrite <- ?app_assoc, ?app_nil_r; simpl; auto.

(** X3.  Recording a light level, a pressure or a temperature makes one call
    to the data service, for one entry with the path of the quantity, the
    value and the timestamp given; the result is the answer of the service,
    and the entry is in the record exactly when that answer is [LE_OK]. *)
Theorem scalar_record_appends_one_entry (ts : Z) (l : Z) (p t : float) :
  appends_until_failure (LightSensorFields ts l) (LightSensorRecord ts l)
  /\ appends_until_failure (PressureSensorFields ts p)
       (PressureSensorRecord ts p)
  /\ appends_until_failure (TemperatureSensorFields ts t)
       (TemperatureSensorRecord ts t).
Proof.
  unfold appends_until_failure, LightSensorFields, PressureSensorFields,
    TemperatureSensorFields, LightSensorRecord, PressureSensorRecord,
    TemperatureSensorRecord.
  repeat split; scalar_record.
Qed.

Ltac record_log :=
  intros [answer pushes made kept pushed logged];
  unfold bindP, retP, le_avdata_RecordFloat, le_avdata_RecordInt,
    avdata_record, LE_ERROR, log_msg;
  cbn [recordCalls RecordRef record_result push_result pushCalls syslog
       first_failure List.length];
  repeat (count_calls; next_answer;
          cbn [negb recordCalls RecordRef record_result push_result pushCalls
               syslog]);
  repeat split; auto.

(** X4.  None of the six record functions pushes the record.  Each logs
    nothing when it returns [LE_OK], and when the data service refuses an
    entry it returns the code of the refusal and logs exactly one error:
    the line of the quantity, or for a composite reading that of the
    sub-field refused, followed by the text of the code.  A refused
    temperature is logged with the line of the pressure. *)
Theorem record_logs_refused_field
    (ts : Z) (l : Z) (p t : float) (a : Acceleration) (g : Gyro)
    (loc : Location3d) :
  logs_refused_field
    ["Couldn't record light sensor reading - "]
    (LightSensorRecord ts l)
  /\ logs_refused_field
       ["Couldn't record pressure sensor reading - "]
       (PressureSensorRecord ts p)
  /\ logs_refused_field
       ["Couldn't record pressure sensor reading - "]
       (TemperatureSensorRecord ts t)
  /\ logs_refused_field
       ["Couldn't record accelerometer x reading - ";
        "Couldn't record accelerometer y reading - ";
        "Couldn't record accelerometer z reading - "]
       (AccelerometerRecord ts a)
  /\ logs_refused_field
       ["Couldn't record gyro x reading - ";
        "Couldn't record gyro y reading - ";
        "Couldn't record gyro z reading - "]
       (GyroRecord ts g)
  /\ logs_refused_field
       ["Couldn't record gps latitude reading - ";
        "Couldn't record gps longitude reading - ";
        "Couldn't record gps horizontal accuracy reading - ";
        "Couldn't record gps altitude reading - ";
        "Couldn't record gps vertical accuracy reading - "]
       (GpsRecord ts loc).
Proof.
  unfold logs_refused_field, LightSensorRecord, PressureSensorRecord,
    TemperatureSensorRecord, AccelerometerRecord, GyroRecord, GpsRecord.
  repeat split; record_log.
Qed.

(** ** More on the sampling pass *)

Lemma read_failure_skips_entry_witness :
  sample_item (bench (LE_FAULT, 20%float)) (t0 + 1000) t0
              (temperatureAt 20 20 t0 t0) false boot
  = Some (set_lastValueRead (temperatureAt 20 20 t0 t0) 20%float,
          max_interval_force (t0 + 1000) t0
            (set_lastValueRead (temperatureAt 20 20 t0 t0) 20%float)
          || false,
          {| platform :=
               snd (LE_WARN "Failed to read temperature" service_ok);
             calls := [mkCall "temperature" OpRead] |}).
Proof.
  apply (read_failure_skips_entry
           (bench (LE_FAULT, 20%float)) (t0 + 1000) t0 float
           (temperatureAt 20 20 t0 t0) false boot
           TemperatureSensorRead LE_FAULT 20%float);
    [reflexivity | reflexivity | discriminate].
Defined.

Lemma sample_item_keeps_lastTimeRecorded_witness :
  lastTimeRecorded (temperatureAt 20 20 t0 0)
  = lastTimeRecorded temperatureItem.
Proof.
  exact (sample_item_keeps_lastTimeRecorded
           (bench (LE_OK, 20%float)) t0 0 float temperatureItem
           (temperatureAt 20 20 t0 0) false true boot
           (mkWorld
              (service LE_OK LE_OK
                 [mkEntry "MangOH.Sensors.Pressure.Temperature"
                          (FloatVal 20) t0]
                 [mkEntry "MangOH.Sensors.Pressure.Temperature"
                          (FloatVal 20) t0])
              [mkCall "temperature" OpRead;
               mkCall "temperature" (OpRecord t0);
               mkCall "temperature" OpCopyValue])
           eq_refl).
Defined.

(** X7.  An entry that the sweep has not recorded yet ([lastTimeRecorded]
    at 0) and whose read succeeds, on a tick whose time exceeds
    [MaxIntervalBetweenPublish] in milliseconds and the time of the last
    publish.  The sampling pass calls [record] with the time of the tick
    and the value read, wants a publish and leaves the entry stale, whether
    that call succeeds or fails.  The sweep of the same tick, on the entry
    as the sampling pass left it and whatever the other entries made of the
    platform in between, calls [record] a second time with the same time
    and the same value; [lastTimeRecorded] is set when that second call
    succeeds, and not otherwise. *)
Theorem unrecorded_entry_recorded_twice
    (hw : Sensors) (now ltp : Z) (T : Type) (it : Item T)
    (publish : bool) (w : World) rd v rec cp :
  lastTimeRecorded it = 0 ->
  read it = Some rd ->
  rd hw (lastValueRead it) = (LE_OK, v) ->
  record it = Some rec ->
  copyValue it = Some cp ->
  MaxIntervalBetweenPublish * 1000 < now < 2 ^ 64 ->
  ltp < now ->
  exists it' w',
    sample_item hw now ltp it publish w = Some (it', true, w')
    /\ (let (r1, p1) := rec now v (platform w) in
        if is_ok r1 then
          calls w' = calls w ++ [mkCall (name it) OpRead;
                                 mkCall (name it) (OpRecord now);
                                 mkCall (name it) OpCopyValue]
          /\ platform w' = p1
        else
          calls w' = calls w ++ [mkCall (name it) OpRead;
                                 mkCall (name it) (OpRecord now)]
          /\ platform w'
             = snd (LE_WARN ("Failed to record " ++ name it)%string p1))
    /\ is_stale now it' = true
    /\ lastTimeRecorded it' = 0
    /\ forall ws : World,
       exists it'' ws',
         stale_item now it' ws = Some (it'', ws')
         /\ (let (r2, p2) := rec now v (platform ws) in
             if is_ok r2 then
               calls ws' = calls ws ++ [mkCall (name it) (OpRecord now);
                                        mkCall (name it) OpCopyValue]
               /\ platform ws' = p2
               /\ it'' = set_lastTimeRecorded
                           (set_lastValueRecorded it'
                              (cp (lastValueRecorded it') v))
                           now
             else
               calls ws' = calls ws ++ [mkCall (name it) (OpRecord now)]
               /\ platform ws'
                  = snd (LE_WARN ("Failed to record " ++ name it)%string p2)
               /\ it'' = it').
Proof.
  intros Hnever Hread Hrd Hrec Hcp Hnow Hltp.
  unfold MaxIntervalBetweenPublish in Hnow.
  assert (Hu : u64_sub now 0 = now).
  { unfold u64_sub, wrap_u64. rewrite Z.sub_0_r. apply Z.mod_small. lia. }
  assert (Hforce : forall a : Item T,
             lastTimeRecorded a = 0 -> lastTimeRead a = now ->
             max_interval_force now ltp a = true /\ is_stale now a = true).
  { intros a Ha Hb. unfold max_interval_force, is_stale.
    rewrite Ha, Hb, Hu. unfold TimeToStale, MaxIntervalBetweenPublish.
    split; apply andb_true_intro; split; apply Z.ltb_lt; lia. }
  assert (Hsweep : forall a : Item T,
             is_stale now a = true -> lastTimeRead a = now ->
             lastValueRead a = v -> name a = name it ->
             record a = Some rec -> copyValue a = Some cp ->
             forall ws : World,
             exists a' ws',
               stale_item now a ws = Some (a', ws')
               /\ (let (r2, p2) := rec now v (platform ws) in
                   if is_ok r2 then
                     calls ws' = calls ws ++ [mkCall (name it) (OpRecord now);
                                              mkCall (name it) OpCopyValue]
                     /\ platform ws' = p2
                     /\ a' = set_lastTimeRecorded
                               (set_lastValueRecorded a
                                  (cp (lastValueRecorded a) v))
                               now
                   else
                     calls ws' = calls ws ++ [mkCall (name it) (OpRecord now)]
                     /\ platform ws'
                        = snd (LE_WARN ("Failed to record " ++ name it)%string
                                 p2)
                     /\ a' = a)).
  { intros a Hs Ht Hv Hn Hr Hc ws.
    unfold stale_item, bind, invoke, lift, ret.
    rewrite Hs, Hr, Ht, Hv, Hn. cbn -[String.append].
    destruct (rec now v (platform ws)) as [r2 p2].
    destruct (is_ok r2); cbn -[String.append];
      [rewrite Hc; cbn -[String.append]|];
      eexists _, _; (split; [reflexivity|]); cbn [calls platform];
      rewrite <- ?app_assoc; repeat split; rewrite <- ?Ht; reflexivity. }
  unfold sample_item, bind, invoke, lift, ret.
  rewrite Hread, Hrd. cbn -[String.append].
  rewrite Hnever, Hrec. cbn -[String.append].
  destruct (rec now v (platform w)) as [r1 p1].
  destruct (is_ok r1); cbn -[String.append];
    [rewrite Hcp; cbn -[String.append]|];
    match goal with
    | |- context [max_interval_force ?n ?l ?i] =>
        destruct (Hforce i) as [Hf Hs]; [assumption|reflexivity|rewrite Hf]
    end;
    eexists _, _; (split; [reflexivity|]); cbn [calls platform];
    rewrite <- ?app_assoc;
    (split; [split; reflexivity|]);
    (split; [exact Hs|]); (split; [assumption|]);
    apply Hsweep; try assumption; reflexivity.
Qed.

Lemma unrecorded_entry_recorded_twice_witness :
  exists it' w',
    sample_item (bench (LE_OK, 20%float)) t0 0 temperatureItem false boot
    = Some (it', true, w')
    /\ (calls w' = [mkCall "temperature" OpRead;
                    mkCall "temperature" (OpRecord t0);
                    mkCall "temperature" OpCopyValue]
        /\ platform w'
           = service LE_OK LE_OK
               [mkEntry "MangOH.Sensors.Pressure.Temperature" (FloatVal 20)
                        t0]
               [mkEntry "MangOH.Sensors.Pressure.Temperature" (FloatVal 20)
                        t0])
    /\ is_stale t0 it' = true
    /\ lastTimeRecorded it' = 0
    /\ forall ws : World,
       exists it'' ws',
         stale_item t0 it' ws = Some (it'', ws')
         /\ (let (r2, p2) := TemperatureSensorRecord t0 20 (platform ws) in
             if is_ok r2 then
               calls ws' = calls ws ++ [mkCall "temperature" (OpRecord t0);
                                        mkCall "temperature" OpCopyValue]
               /\ platform ws' = p2
               /\ it'' = set_lastTimeRecorded
                           (set_lastValueRecorded it'
                              (TemperatureSensorCopyValue
                                 (lastValueRecorded it') 20%float))
                           t0
             else
               calls ws' = calls ws ++ [mkCall "temperature" (OpRecord t0)]
               /\ platform ws'
                  = snd (LE_WARN "Failed to record temperature" p2)
               /\ it'' = it').
Proof.
  assert (Hnow : MaxIntervalBetweenPublish * 1000 < t0 < 2 ^ 64)
    by (vm_compute; split; reflexivity).
  assert (Hltp : 0 < t0) by (vm_compute; reflexivity).
  exact (unrecorded_entry_recorded_twice
           (bench (LE_OK, 20%float)) t0 0 float temperatureItem false boot
           TemperatureSensorRead 20%float TemperatureSensorRecord
           TemperatureSensorCopyValue
           eq_refl eq_refl eq_refl eq_refl eq_refl Hnow Hltp).
Defined.

Lemma sample_item_keeps_publish
    (hw : Sensors) (now ltp : Z) (T : Type) (it it' : Item T)
    (publish' : bool) (w w' : World) :
  sample_item hw now ltp it true w = Some (it', publish', w') ->
  publish' = true.
Proof.
  run_handler.
  destruct (read it) as [rd|]; [|discriminate].
  destruct (rd hw (lastValueRead it)) as [r v].
  cbn -[String.append].
  destruct (is_ok r); cbn -[String.append].
  - destruct (lastTimeRecorded it =? 0); cbn -[String.append].
    2: destruct (thresholdCheck it) as [chk|]; [|discriminate];
       cbn -[String.append];
       destruct (chk v (lastValueRecorded it)); cbn -[String.append].
    1,2: destruct (record it) as [rec|]; [|discriminate];
         cbn -[String.append];
         destruct (rec now v (platform w)) as [r' p'];
         destruct (is_ok r'); cbn -[String.append];
         [destruct (copyValue it) as [cp|]; [|discriminate];
          cbn -[String.append]|].
    all: split_on_force; intros [= _ <- _]; reflexivity.
  - split_on_force; intros [= _ <- _]; reflexivity.
Qed.

(** X8.  Once an entry has made the sampling pass want a publish, no later
    entry withdraws it: neither a failed read, nor a failed record, nor a
    reading under its threshold. *)
Theorem publish_request_is_never_withdrawn
    (hw : Sensors) (now ltp : Z) (its : list AnyItem) :
  forall (w : World) its' publish' w',
    sample_loop hw now ltp its true w = Some (its', publish', w') ->
    publish' = true.
Proof.
  induction its as [|[T it] rest IH]; intros w its' publish' w'.
  - intros [= _ <- _]. reflexivity.
  - cbn [sample_loop]. unfold bind at 1.
    destruct (sample_item hw now ltp it true w)
      as [[[it1 pub1] w1]|] eqn:Hitem; [|discriminate].
    apply sample_item_keeps_publish in Hitem. subst pub1.
    unfold bind at 1.
    destruct (sample_loop hw now ltp rest true w1)
      as [[[rest1 pub2] w2]|] eqn:Hrest; [|discriminate].
    intros [= _ <- _]. eapply IH, Hrest.
Qed.

Lemma publish_request_is_never_withdrawn_witness : true = true.
Proof.
  exact (publish_request_is_never_withdrawn
           (bench (LE_FAULT, 20%float)) t0 t0
           [any (temperatureAt 20 20 t0 t0)] boot
           [any (temperatureAt 20 20 t0 t0)] true
           (mkWorld
              (snd (LE_WARN "Failed to read temperature" service_ok))
              [mkCall "temperature" OpRead])
           eq_refl).
Defined.

(** ** More on the sweep and the scheduler *)

(** X9.  After the sweep has handled an entry, the entry is stale only if
    its [record] has just failed, and it is then exactly as it was: a
    record that succeeds ends the staleness, so that the next sweep does
    not record the same reading again. *)
Theorem swept_entry_stale_only_after_failure
    (now : Z) (T : Type) (it it' : Item T) (w w' : World) :
  stale_item now it w = Some (it', w') ->
  is_stale now it' = false
  \/ (it' = it
      /\ exists rec,
           record it = Some rec
           /\ fst (rec (lastTimeRead it) (lastValueRead it) (platform w))
              <> LE_OK).
Proof.
  run_handler.
  destruct (is_stale now it) eqn:Hstale.
  - destruct (record it) as [rec|] eqn:Hrec; [|discriminate].
    cbn -[String.append].
    destruct (rec (lastTimeRead it) (lastValueRead it) (platform w))
      as [r p'] eqn:Hrun.
    destruct (is_ok r) eqn:Hr; cbn -[String.append].
    + destruct (copyValue it) as [cp|]; [|discriminate].
      cbn -[String.append]. intros [= <- _]. left.
      unfold is_stale. cbn. rewrite Z.ltb_irrefl. apply andb_false_r.
    + intros [= <- _]. right. split; [reflexivity|].
      exists rec. split; [reflexivity|]. rewrite Hrun.
      now apply is_ok_false.
  - intros [= <- _]. now left.
Qed.

Lemma swept_entry_stale_only_after_failure_witness :
  is_stale (t0 + 130000) (temperatureAt 20.5 20 (t0 + 70000) t0) = false
  \/ (temperatureAt 20.5 20 (t0 + 70000) t0
      = temperatureAt 20.5 20 (t0 + 70000) t0
      /\ exists rec,
           record (temperatureAt 20.5 20 (t0 + 70000) t0) = Some rec
           /\ fst (rec (t0 + 70000) 20.5%float
                     (service LE_OVERFLOW LE_OK [] []))
              <> LE_OK).
Proof.
  exact (swept_entry_stale_only_after_failure
           (t0 + 130000) float
           (temperatureAt 20.5 20 (t0 + 70000) t0)
           (temperatureAt 20.5 20 (t0 + 70000) t0)
           (mkWorld (service LE_OVERFLOW LE_OK [] []) [])
           (mkWorld
              (snd (LE_WARN "Failed to record temperature"
                      (snd (TemperatureSensorRecord (t0 + 70000) 20.5%float
                              (service LE_OVERFLOW LE_OK [] [])))))
              [mkCall "temperature" (OpRecord (t0 + 70000))])
           eq_refl).
Defined.

Lemma publish_deferred_within_min_interval_witness :
  SampleTimerHandler (bench (LE_OK, 25%float)) (t0 + 5)
    (mkState [any (temperatureAt 20 20 t0 t0)] false t0) boot
  = Some ({| items := [any (temperatureAt 25 25 (t0 + 5) t0)];
             DeferredPublish := true;
             LastTimePublished := t0 |},
          mkWorld
            (service LE_OK LE_OK
               [mkEntry "MangOH.Sensors.Pressure.Temperature"
                        (FloatVal 25) (t0 + 5)]
               [mkEntry "MangOH.Sensors.Pressure.Temperature"
                        (FloatVal 25) (t0 + 5)])
            [mkCall "temperature" OpRead;
             mkCall "temperature" OpThresholdCheck;
             mkCall "temperature" (OpRecord (t0 + 5));
             mkCall "temperature" OpCopyValue]).
Proof.
  assert (Hgate : u64_sub (t0 + 5) t0 < MinIntervalBetweenPublish)
    by (vm_compute; reflexivity).
  exact (publish_deferred_within_min_interval
           (bench (LE_OK, 25%float)) (t0 + 5)
           (mkState [any (temperatureAt 20 20 t0 t0)] false t0) boot
           [any (temperatureAt 25 25 (t0 + 5) t0)] true
           (mkWorld
              (service LE_OK LE_OK
                 [mkEntry "MangOH.Sensors.Pressure.Temperature"
                          (FloatVal 25) (t0 + 5)]
                 [mkEntry "MangOH.Sensors.Pressure.Temperature"
                          (FloatVal 25) (t0 + 5)])
              [mkCall "temperature" OpRead;
               mkCall "temperature" OpThresholdCheck;
               mkCall "temperature" (OpRecord (t0 + 5));
               mkCall "temperature" OpCopyValue])
           eq_refl eq_refl Hgate).
Defined.

(** Split a run of the handler along its branches: deferred, pushed with
    the answer of the push, or idle. *)
Ltac handler_cases Hsample Hsweep :=
  unfold SampleTimerHandler, bind;
  match goal with
  | |- context [sample_loop ?hw ?now ?ltp ?its false ?w] =>
      destruct (sample_loop hw now ltp its false w)
        as [[[its1 publish] w1]|] eqn:Hsample; [|discriminate]
  end;
  match goal with
  | |- context [?p || DeferredPublish ?s] =>
      destruct (p || DeferredPublish s) eqn:Hwanted
  end;
  [ match goal with
    | |- context [u64_sub ?now ?ltp <? MinIntervalBetweenPublish] =>
        destruct (u64_sub now ltp <? MinIntervalBetweenPublish) eqn:Hgate
    end;
    [ | match goal with
        | |- context [stale_loop ?now ?its ?w] =>
            destruct (stale_loop now its w) as [[its2 w2]|] eqn:Hsweep;
            [|discriminate]
        end;
        unfold lift, le_avdata_PushRecord, ret; cbn -[String.append];
        match goal with
        | |- context [is_ok ?r] => destruct (is_ok r) eqn:Hpush
        end; cbn -[String.append] ]
  | ];
  unfold ret.

(** X11.  Over one run of the handler, [LastTimePublished] and
    [DeferredPublish] move in one of three ways only: both stay; or the
    publish is deferred, which happens only under the rate limit; or the
    time of the tick is taken and the deferral cleared, which happens only
    at or beyond the rate limit.  [LastTimePublished] never takes another
    value than the time of a tick. *)
Theorem publish_state_transitions
    (hw : Sensors) (now : Z) (s s' : State) (w w' : World) :
  SampleTimerHandler hw now s w = Some (s', w') ->
  (LastTimePublished s' = LastTimePublished s
   /\ DeferredPublish s' = DeferredPublish s)
  \/ (LastTimePublished s' = LastTimePublished s
      /\ DeferredPublish s' = true
      /\ u64_sub now (LastTimePublished s) < MinIntervalBetweenPublish)
  \/ (LastTimePublished s' = now
      /\ DeferredPublish s' = false
      /\ MinIntervalBetweenPublish <= u64_sub now (LastTimePublished s)).
Proof.
  handler_cases Hsample Hsweep; intros [= <- _];
    cbn [LastTimePublished DeferredPublish].
  - right; left. repeat split. now apply Z.ltb_lt.
  - right; right. repeat split. now apply Z.ltb_ge.
  - now left.
  - now left.
Qed.

Lemma publish_state_transitions_witness :
  (t0 = 0 /\ false = false)
  \/ (t0 = 0 /\ false = true
      /\ u64_sub t0 0 < MinIntervalBetweenPublish)
  \/ (t0 = t0 /\ false = false
      /\ MinIntervalBetweenPublish <= u64_sub t0 0).
Proof.
  pose (e := mkEntry "MangOH.Sensors.Pressure.Temperature" (FloatVal 20) t0).
  exact (publish_state_transitions
           (bench (LE_OK, 20%float)) t0
           (mkState [any temperatureItem] false 0)
           (mkState [any (temperatureAt 20 20 t0 t0)] false t0)
           boot
           (mkWorld
              {| record_result := fun _ => LE_OK;
                 push_result := fun _ => LE_OK;
                 recordCalls := [e; e];
                 RecordRef := [e; e];
                 pushCalls := [[e; e]];
                 syslog := [] |}
              [mkCall "temperature" OpRead;
               mkCall "temperature" (OpRecord t0);
               mkCall "temperature" OpCopyValue;
               mkCall "temperature" (OpRecord t0);
               mkCall "temperature" OpCopyValue])
           eq_refl).
Defined.

Lemma quiet_entry_sampled
    (hw : Sensors) (now ltp : Z) (T : Type) (it : Item T) (publish : bool)
    (w : World) :
  quiet_entry hw now ltp (any it) ->
  exists v,
    sample_item hw now ltp it publish w
    = Some (set_lastTimeRead (set_lastValueRead it v) now, publish,
            {| platform := platform w;
               calls := calls w ++ [mkCall (name it) OpRead;
                                    mkCall (name it) OpThresholdCheck] |}).
Proof.
  intros (rd & chk & v & Hread & Hrd & Hsome & Hchk & Hthr & Hforce).
  exists v. apply Z.eqb_neq in Hsome.
  run_handler. rewrite Hread, Hrd. cbn -[String.append].
  rewrite Hsome, Hchk. cbn -[String.append]. rewrite Hthr.
  cbn -[String.append].
  replace (max_interval_force now ltp
             (set_lastTimeRead (set_lastValueRead it v) now)) with false.
  - rewrite <- app_assoc. reflexivity.
  - symmetry. unfold max_interval_force. cbn.
    destruct Hforce as [H|H].
    + apply andb_false_intro1. now apply Z.ltb_ge.
    + apply andb_false_intro2. now apply Z.ltb_ge.
Qed.

Lemma quiet_entries_sampled (hw : Sensors) (now ltp : Z) (its : list AnyItem) :
  Forall (quiet_entry hw now ltp) its ->
  forall publish w,
  exists its' evs,
    sample_loop hw now ltp its publish w
    = Some (its', publish,
            {| platform := platform w; calls := calls w ++ evs |})
    /\ Forall2 (refreshed now) its its'.
Proof.
  induction 1 as [|[T it] rest Hq _ IH]; intros publish w.
  - exists [], []. rewrite app_nil_r. destruct w. split; [reflexivity|].
    constructor.
  - destruct (quiet_entry_sampled hw now ltp T it publish w Hq) as [v Hv].
    set (w1 := {| platform := platform w;
                  calls := calls w ++ [mkCall (name it) OpRead;
                                       mkCall (name it) OpThresholdCheck] |})
      in Hv.
    destruct (IH publish w1) as (rest' & evs & Hrest & Hall).
    eexists _, _. split.
    + cbn [sample_loop]. unfold bind. rewrite Hv, Hrest. unfold ret.
      cbn [platform calls w1]. rewrite <- app_assoc. reflexivity.
    + constructor; [|exact Hall]. now exists T, it, v.
Qed.

(** X12.  A tick on which nothing is deferred and every entry is quiet (it
    has been recorded, its read succeeds under the threshold, the
    max-interval condition does not hold) runs to its end and changes
    nothing but the value and time read of each entry: no record, no push,
    no line in the log, and the publish state as it was. *)
Theorem quiet_tick_changes_nothing
    (hw : Sensors) (now : Z) (s : State) (w : World) :
  Forall (quiet_entry hw now (LastTimePublished s)) (items s) ->
  DeferredPublish s = false ->
  exists s' w',
    SampleTimerHandler hw now s w = Some (s', w')
    /\ platform w' = platform w
    /\ DeferredPublish s' = false
    /\ LastTimePublished s' = LastTimePublished s
    /\ Forall2 (refreshed now) (items s) (items s').
Proof.
  intros Hquiet Hdeferred.
  destruct (quiet_entries_sampled hw now _ _ Hquiet false w)
    as (its' & evs & Hrun & Hall).
  unfold SampleTimerHandler, bind. rewrite Hrun, Hdeferred.
  cbn [orb]. unfold ret. eexists _, _. split; [reflexivity|].
  cbn. repeat split; assumption.
Qed.

Lemma quiet_tick_changes_nothing_witness :
  exists s' w',
    SampleTimerHandler (bench (LE_OK, 20.5%float)) (t0 + 1000)
      (mkState [any (temperatureAt 20 20 t0 t0)] false t0) boot
    = Some (s', w')
    /\ platform w' = platform boot
    /\ DeferredPublish s' = false
    /\ LastTimePublished s' = t0
    /\ Forall2 (refreshed (t0 + 1000))
         [any (temperatureAt 20 20 t0 t0)] (items s').
Proof.
  apply (quiet_tick_changes_nothing
           (bench (LE_OK, 20.5%float)) (t0 + 1000)
           (mkState [any (temperatureAt 20 20 t0 t0)] false t0) boot);
    [|reflexivity].
  constructor; [|constructor].
  exists TemperatureSensorRead, TemperatureSensorThreshold, 20.5%float.
  repeat split; try reflexivity.
  - vm_compute. discriminate.
  - left. vm_compute. discriminate.
Defined.

(** ** What a run of the handler keeps *)

Lemma same_descriptor_trans e1 e2 e3 :
  same_descriptor e1 e2 -> same_descriptor e2 e3 -> same_descriptor e1 e3.
Proof.
  intros H12 H23. destruct H12 as [T a b Hn Hr Ht Hc Hp].
  inversion H23 as [T' b' c Hn' Hr' Ht' Hc' Hp' [HT Hb] Hc3]. subst.
  apply inj_pair2 in Hb. subst b'.
  constructor; congruence.
Qed.

Lemma sample_item_same_descriptor
    (hw : Sensors) (now ltp : Z) (T : Type) (it it' : Item T)
    (publish publish' : bool) (w w' : World) :
  sample_item hw now ltp it publish w = Some (it', publish', w') ->
  same_descriptor (any it) (any it').
Proof.
  run_handler.
  destruct (read it) as [rd|]; [|discriminate].
  destruct (rd hw (lastValueRead it)) as [r v].
  cbn -[String.append].
  destruct (is_ok r); cbn -[String.append].
  - destruct (lastTimeRecorded it =? 0); cbn -[String.append].
    2: destruct (thresholdCheck it) as [chk|]; [|discriminate];
       cbn -[String.append];
       destruct (chk v (lastValueRecorded it)); cbn -[String.append].
    1,2: destruct (record it) as [rec|]; [|discriminate];
         cbn -[String.append];
         destruct (rec now v (platform w)) as [r' p'];
         destruct (is_ok r'); cbn -[String.append];
         [destruct (copyValue it) as [cp|]; [|discriminate];
          cbn -[String.append]|].
    all: split_on_force; intros [= <- _ _]; now constructor.
  - split_on_force; intros [= <- _ _]; now constructor.
Qed.

Lemma stale_item_same_descriptor
    (now : Z) (T : Type) (it it' : Item T) (w w' : World) :
  stale_item now it w = Some (it', w') ->
  same_descriptor (any it) (any it').
Proof.
  run_handler.
  destruct (is_stale now it).
  - destruct (record it) as [rec|]; [|discriminate].
    cbn -[String.append].
    destruct (rec (lastTimeRead it) (lastValueRead it) (platform w))
      as [r p'].
    destruct (is_ok r); cbn -[String.append].
    + destruct (copyValue it) as [cp|]; [|discriminate].
      cbn -[String.append]. intros [= <- _]. now constructor.
    + intros [= <- _]. now constructor.
  - intros [= <- _]. now constructor.
Qed.

Lemma Forall2_compose {A} (R : A -> A -> Prop) (l1 l2 l3 : list A) :
  (forall a b c, R a b -> R b c -> R a c) ->
  Forall2 R l1 l2 -> Forall2 R l2 l3 -> Forall2 R l1 l3.
Proof.
  intros Htrans H12. revert l3.
  induction H12; intros l3 H23; inversion H23; subst; constructor; eauto.
Qed.

(** X13.  A run of the handler keeps the registry: as many entries, in the
    same order, each with the name and the four functions it had.  Only
    the values and the times of an entry change. *)
Theorem handler_keeps_descriptors
    (hw : Sensors) (now : Z) (s s' : State) (w w' : World) :
  SampleTimerHandler hw now s w = Some (s', w') ->
  Forall2 same_descriptor (items s) (items s').
Proof.
  assert (Hsampled : forall its publish w0 its' publish' w0',
             sample_loop hw now (LastTimePublished s) its publish w0
             = Some (its', publish', w0') ->
             Forall2 same_descriptor its its').
  { intros its publish w0 its' publish' w0' H.
    apply sample_loop_samples_every_entry in H.
    induction H as [|e e' l l' (T & a & b & p1 & p2 & wa & wb & -> & -> & H)];
      constructor; auto.
    eapply sample_item_same_descriptor, H. }
  assert (Hswept : forall its w0 its' w0',
             stale_loop now its w0 = Some (its', w0') ->
             Forall2 same_descriptor its its').
  { intros its w0 its' w0' H.
    apply stale_loop_sweeps_every_entry in H.
    induction H as [|e e' l l' (T & a & b & wa & wb & -> & -> & H)];
      constructor; auto.
    eapply stale_item_same_descriptor, H. }
  handler_cases Hsample Hsweep; intros [= <- _]; cbn [items];
    try (eapply Hsampled, Hsample);
    (eapply Forall2_compose;
     [apply same_descriptor_trans
     |eapply Hsampled, Hsample|eapply Hswept, Hsweep]).
Qed.

Lemma handler_keeps_descriptors_witness :
  Forall2 same_descriptor
    [any (temperatureAt 20 20 t0 t0)]
    [any (temperatureAt 20.5 20 (t0 + 1000) t0)].
Proof.
  exact (handler_keeps_descriptors
           (bench (LE_OK, 20.5%float)) (t0 + 1000)
           (mkState [any (temperatureAt 20 20 t0 t0)] false t0)
           (mkState [any (temperatureAt 20.5 20 (t0 + 1000) t0)] false t0)
           boot
           (mkWorld service_ok
              [mkCall "temperature" OpRead;
               mkCall "temperature" OpThresholdCheck])
           eq_refl).
Defined.

Lemma sample_item_time_ordered
    (hw : Sensors) (now ltp : Z) (T : Type) (it it' : Item T)
    (publish publish' : bool) (w w' : World) :
  time_ordered now (any it) ->
  sample_item hw now ltp it publish w = Some (it', publish', w') ->
  time_ordered now (any it').
Proof.
  unfold time_ordered, any. intros Hord.
  run_handler.
  destruct (read it) as [rd|]; [|discriminate].
  destruct (rd hw (lastValueRead it)) as [r v].
  cbn -[String.append].
  destruct (is_ok r); cbn -[String.append].
  - destruct (lastTimeRecorded it =? 0); cbn -[String.append].
    2: destruct (thresholdCheck it) as [chk|]; [|discriminate];
       cbn -[String.append];
       destruct (chk v (lastValueRecorded it)); cbn -[String.append].
    1,2: destruct (record it) as [rec|]; [|discriminate];
         cbn -[String.append];
         destruct (rec now v (platform w)) as [r' p'];
         destruct (is_ok r'); cbn -[String.append];
         [destruct (copyValue it) as [cp|]; [|discriminate];
          cbn -[String.append]|].
    all: split_on_force; intros [= <- _ _]; cbn; clear - Hord; lia.
  - split_on_force; intros [= <- _ _]; cbn; clear - Hord; lia.
Qed.

Lemma stale_item_time_ordered
    (now : Z) (T : Type) (it it' : Item T) (w w' : World) :
  time_ordered now (any it) ->
  stale_item now it w = Some (it', w') ->
  time_ordered now (any it').
Proof.
  unfold time_ordered, any. intros Hord.
  run_handler.
  destruct (is_stale now it).
  - destruct (record it) as [rec|]; [|discriminate].
    cbn -[String.append].
    destruct (rec (lastTimeRead it) (lastValueRead it) (platform w))
      as [r p'].
    destruct (is_ok r); cbn -[String.append].
    + destruct (copyValue it) as [cp|]; [|discriminate].
      cbn -[String.append]. intros [= <- _]. cbn. clear - Hord. lia.
    + intros [= <- _]. assumption.
  - intros [= <- _]. assumption.
Qed.

(** X14.  With a clock that does not go back, the times of every entry stay
    in order over a run of the handler: an entry is never marked recorded
    later than it was read, nor read later than the tick. *)
Theorem handler_keeps_times_ordered
    (hw : Sensors) (before now : Z) (s s' : State) (w w' : World) :
  before <= now ->
  Forall (time_ordered before) (items s) ->
  SampleTimerHandler hw now s w = Some (s', w') ->
  Forall (time_ordered now) (items s').
Proof.
  intros Hclock Hbefore.
  assert (Hord : Forall (time_ordered now) (items s)).
  { eapply Forall_impl; [|exact Hbefore].
    intros [T it]. unfold time_ordered. lia. }
  assert (Hsampled : forall its its',
             Forall2
               (fun e e' : AnyItem =>
                  exists T (it it' : Item T) pub pub' wa wb,
                    e = any it /\ e' = any it'
                    /\ sample_item hw now (LastTimePublished s) it pub wa
                       = Some (it', pub', wb)) its its' ->
             Forall (time_ordered now) its -> Forall (time_ordered now) its').
  { induction 1 as [|e e' l l' (T & a & b & p1 & p2 & wa & wb & -> & -> & H)];
      intros Hall; inversion Hall; subst; constructor; auto.
    eapply sample_item_time_ordered; eassumption. }
  assert (Hswept : forall its its',
             Forall2
               (fun e e' : AnyItem =>
                  exists T (it it' : Item T) wa wb,
                    e = any it /\ e' = any it'
                    /\ stale_item now it wa = Some (it', wb)) its its' ->
             Forall (time_ordered now) its -> Forall (time_ordered now) its').
  { induction 1 as [|e e' l l' (T & a & b & wa & wb & -> & -> & H)];
      intros Hall; inversion Hall; subst; constructor; auto.
    eapply stale_item_time_ordered; eassumption. }
  handler_cases Hsample Hsweep; intros [= <- _]; cbn [items];
    apply sample_loop_samples_every_entry in Hsample;
    try (apply stale_loop_sweeps_every_entry in Hsweep); eauto.
Qed.

Lemma handler_keeps_times_ordered_witness :
  Forall (time_ordered (t0 + 1000))
    [any (temperatureAt 20.5 20 (t0 + 1000) t0)].
Proof.
  assert (Hclock : t0 <= t0 + 1000) by (vm_compute; discriminate).
  assert (Hbefore : Forall (time_ordered t0)
                      [any (temperatureAt 20 20 t0 t0)]).
  { constructor; [|constructor]. vm_compute. split; discriminate. }
  exact (handler_keeps_times_ordered
           (bench (LE_OK, 20.5%float)) t0 (t0 + 1000)
           (mkState [any (temperatureAt 20 20 t0 t0)] false t0)
           (mkState [any (temperatureAt 20.5 20 (t0 + 1000) t0)] false t0)
           boot
           (mkWorld service_ok
              [mkCall "temperature" OpRead;
               mkCall "temperature" OpThresholdCheck])
           Hclock Hbefore eq_refl).
Defined.

(** ** A clock that steps back *)

Lemma u64_sub_step_back (now past : Z) :
  0 <= now < past -> past < 2 ^ 63 ->
  u64_sub now past = 2 ^ 64 - (past - now).
Proof.
  intros Hnow Hpast. unfold u64_sub, wrap_u64.
  rewrite <- (Z.mod_small (2 ^ 64 - (past - now)) (2 ^ 64)) by lia.
  rewrite <- (Z_mod_plus_full (now - past) 1 (2 ^ 64)).
  f_equal. ring.
Qed.

(** X15.  When the clock has stepped back, so that the tick is earlier than
    the last publish, the unsigned difference of the two times wraps to a
    huge value: the rate limit never holds, and a tick that had nothing
    deferred defers nothing.  In the same way every entry recorded later
    than the tick passes both age tests: it is stale as soon as it has a
    newer read, and forces a publish as soon as it has a read newer than
    the last publish. *)
Theorem clock_step_back_never_defers
    (hw : Sensors) (now : Z) (s s' : State) (w w' : World) :
  0 <= now < LastTimePublished s ->
  LastTimePublished s < 2 ^ 63 ->
  DeferredPublish s = false ->
  SampleTimerHandler hw now s w = Some (s', w') ->
  DeferredPublish s' = false
  /\ forall T (it : Item T),
       now < lastTimeRecorded it < 2 ^ 63 ->
       is_stale now it = (lastTimeRecorded it <? lastTimeRead it)
       /\ max_interval_force now (LastTimePublished s) it
          = (LastTimePublished s <? lastTimeRead it).
Proof.
  intros Hnow Hlast Hdeferred Hrun. split.
  - revert Hrun.
    handler_cases Hsample Hsweep; intros [= <- _]; cbn [DeferredPublish];
      auto.
    apply Z.ltb_lt in Hgate. rewrite u64_sub_step_back in Hgate by lia.
    unfold MinIntervalBetweenPublish in Hgate. lia.
  - intros T it Hit. unfold is_stale, max_interval_force.
    rewrite u64_sub_step_back by lia.
    unfold TimeToStale, MaxIntervalBetweenPublish.
    replace (60 * 1000 <? 2 ^ 64 - (lastTimeRecorded it - now)) with true
      by (symmetry; apply Z.ltb_lt; lia).
    replace (120 * 1000 <? 2 ^ 64 - (lastTimeRecorded it - now)) with true
      by (symmetry; apply Z.ltb_lt; lia).
    split; reflexivity.
Qed.

Lemma clock_step_back_never_defers_witness :
  false = false
  /\ forall T (it : Item T),
       t0 - 5000 < lastTimeRecorded it < 2 ^ 63 ->
       is_stale (t0 - 5000) it = (lastTimeRecorded it <? lastTimeRead it)
       /\ max_interval_force (t0 - 5000) t0 it = (t0 <? lastTimeRead it).
Proof.
  assert (Hnow : 0 <= t0 - 5000 < t0) by (vm_compute; split; congruence).
  assert (Hlast : t0 < 2 ^ 63) by (vm_compute; reflexivity).
  exact (clock_step_back_never_defers
           (bench (LE_OK, 20%float)) (t0 - 5000)
           (mkState [any (temperatureAt 20 20 t0 t0)] false t0)
           (mkState [any (temperatureAt 20 20 (t0 - 5000) t0)] false t0)
           boot
           (mkWorld service_ok
              [mkCall "temperature" OpRead;
               mkCall "temperature" OpThresholdCheck])
           Hnow Hlast eq_refl eq_refl).
Defined.

(** ** The LED commands *)

(** The result of [atoi] is an [int]. *)
Lemma atoi_int32 (lib : Libm) (s : string) : int32 (atoi lib s).
Proof.
  unfold atoi, int32. cbv zeta.
  destruct ((- 2 ^ 31 <=? atoi_number s) && (atoi_number s <? 2 ^ 31))
    eqn:Hfit.
  - apply andb_prop in Hfit as [Hlow Hhigh].
    apply Z.leb_le in Hlow. apply Z.ltb_lt in Hhigh. lia.
  - apply wrap_i32_range.
Qed.

(** X16.  Every command handler replies to AirVantage exactly once, and
    pushes to the Data Hub only when that reply is [LE_OK].  For the blink
    interval, with whatever [int] the library's [atoi] makes of the text:
    the reply is the code of [le_avdata_GetStringArg] when the argument
    cannot be read, [LE_OUT_OF_RANGE] when the interval is negative, and
    [LE_OK] otherwise, with the period (twice the interval) pushed before
    the LED is switched on.  The two switch commands push the one LED value
    and reply [LE_OK]. *)
Theorem led_commands_reply_once
    (lib : Libm) (argumentList : ArgumentList) (a : Agent) :
  (let (result, val) := argumentList LED_CMD_LED_BLINK_INTERVAL_RES 32%nat in
   let a' := SetLedBlinkIntervalCmd lib argumentList a in
   let accepted := is_ok result && negb (atoi lib val <? 0) in
   execReplies a'
   = execReplies a
     ++ [if accepted then LE_OK
         else if is_ok result then LE_OUT_OF_RANGE else result]
   /\ dhubPushes a'
      = dhubPushes a
        ++ (if accepted
            then [dhubAdmin_PushNumeric "/app/ledService/blinkPeriod" 0
                    (double_of_int (wrap_i32 (atoi lib val * 2)));
                  dhubAdmin_PushBoolean "/app/ledService/value" 0 true]
            else []))
  /\ (execReplies (ActivateLedCmd a) = execReplies a ++ [LE_OK]
      /\ dhubPushes (ActivateLedCmd a)
         = dhubPushes a
           ++ [dhubAdmin_PushBoolean "/app/ledService/value" 0 true])
  /\ (execReplies (DeactivateLedCmd a) = execReplies a ++ [LE_OK]
      /\ dhubPushes (DeactivateLedCmd a)
         = dhubPushes a
           ++ [dhubAdmin_PushBoolean "/app/ledService/value" 0 false]).
Proof.
  split; [|repeat split].
  unfold SetLedBlinkIntervalCmd, le_avdata_GetStringArg.
  destruct (argumentList LED_CMD_LED_BLINK_INTERVAL_RES 32%nat)
    as [result val].
  destruct (is_ok result) eqn:Hr; cbn [negb andb].
  - destruct (atoi lib val <? 0); cbn [negb]; cbn -[atoi];
      rewrite <- ?app_assoc, ?app_nil_r; split; try reflexivity.
    now rewrite (is_ok_true _ Hr).
  - cbn. now rewrite app_nil_r.
Qed.

(** With a library whose [atoi] gives -1 beyond the range of [int] (a
    saturated [strtol] converted to [int]), an interval of twenty digits is
    refused with [LE_OUT_OF_RANGE] and nothing is pushed. *)
Example led_interval_beyond_int_is_refused :
  let a := SetLedBlinkIntervalCmd bench_libm
             (fun _ _ => (LE_OK, "99999999999999999999")) (mkAgent [] [] []) in
  execReplies a = [LE_OUT_OF_RANGE] /\ dhubPushes a = [].
Proof. vm_compute. split; reflexivity. Qed.

(** A text with no number in front reads as 0. *)
Lemma atoi_without_number (lib : Libm) (s : string) :
  match skip_spaces s with
  | EmptyString => True
  | String c _ => isdigit c = false /\ c <> "-"%char /\ c <> "+"%char
  end ->
  atoi lib s = 0.
Proof.
  intros Htext.
  assert (Hzero : atoi_number s = 0).
  { unfold atoi_number.
    destruct (skip_spaces s) as [|c rest]; [reflexivity|].
    destruct Htext as (Hd & Hm & Hp).
    assert (Hread : read_digits (String c rest) 0 = 0)
      by (cbn [read_digits]; now rewrite Hd).
    destruct c as [[|] [|] [|] [|] [|] [|] [|] [|]];
      try (rewrite Hread; reflexivity); try congruence; try discriminate. }
  unfold atoi. rewrite Hzero. reflexivity.
Qed.

(** X17.  The blink interval is not validated as a number: when the text of
    the argument is empty, blank, or starts (after white space) with a
    character that is neither a digit nor a sign, the command is accepted
    as an interval of 0: a period of 0 is pushed, the LED is switched on
    and the reply is [LE_OK]. *)
Theorem led_interval_text_without_number_is_accepted
    (lib : Libm) (argumentList : ArgumentList) (a : Agent) (val : string) :
  argumentList LED_CMD_LED_BLINK_INTERVAL_RES 32%nat = (LE_OK, val) ->
  match skip_spaces val with
  | EmptyString => True
  | String c _ => isdigit c = false /\ c <> "-"%char /\ c <> "+"%char
  end ->
  execReplies (SetLedBlinkIntervalCmd lib argumentList a)
  = execReplies a ++ [LE_OK]
  /\ dhubPushes (SetLedBlinkIntervalCmd lib argumentList a)
     = dhubPushes a
       ++ [dhubAdmin_PushNumeric "/app/ledService/blinkPeriod" 0 0;
           dhubAdmin_PushBoolean "/app/ledService/value" 0 true].
Proof.
  intros Harg Htext.
  unfold SetLedBlinkIntervalCmd, le_avdata_GetStringArg.
  rewrite Harg, (atoi_without_number lib val Htext).
  cbn. rewrite <- !app_assoc. split; reflexivity.
Qed.

Lemma led_interval_text_without_number_is_accepted_witness :
  execReplies (SetLedBlinkIntervalCmd bench_libm
                 (fun _ _ => (LE_OK, " fast")) (mkAgent [] [] []))
  = [LE_OK]
  /\ dhubPushes (SetLedBlinkIntervalCmd bench_libm
                   (fun _ _ => (LE_OK, " fast")) (mkAgent [] [] []))
     = [dhubAdmin_PushNumeric "/app/ledService/blinkPeriod" 0 0;
        dhubAdmin_PushBoolean "/app/ledService/value" 0 true].
Proof.
  apply (led_interval_text_without_number_is_accepted bench_libm
           (fun _ _ => (LE_OK, " fast")) (mkAgent [] [] []) " fast");
    [reflexivity|].
  cbn. repeat split; discriminate.
Defined.

(** ** The session state *)

